(** * telegrambot/bot.py: a shallow embedding and its verified properties

    The bot is a single-process dispatcher: a lead-collection conversation
    (name, e-mail, note) that appends rows to [leads.csv], a bounded per-user
    transcript, a chain of reply providers ending in an offline template,
    and a static service catalogue.

    Python [str] values are sequences of Unicode code points; they are
    modelled as [list N].  Source literals are written as UTF-8 string
    literals and decoded by [u]. *)

From Stdlib Require Import ZArith NArith List String Ascii Bool Lia.
From Stdlib Require DecimalString DecimalZ.
Import ListNotations.

(* ===================================================================== *)
(** * Text: Python [str] *)
(* ===================================================================== *)

Module Text.

Definition text := list N.

(** Decoding of the UTF-8 bytes of a literal into code points. *)
Fixpoint utf8_decode (bs : list N) : text :=
  match bs with
  | [] => []
  | b0 :: r0 =>
    if (b0 <? 128)%N then b0 :: utf8_decode r0
    else match r0 with
    | [] => []
    | b1 :: r1 =>
      if (b0 <? 224)%N then
        ((b0 mod 32) * 64 + b1 mod 64)%N :: utf8_decode r1
      else match r1 with
      | [] => []
      | b2 :: r2 =>
        if (b0 <? 240)%N then
          ((b0 mod 16) * 4096 + (b1 mod 64) * 64 + b2 mod 64)%N
            :: utf8_decode r2
        else match r2 with
        | [] => []
        | b3 :: r3 =>
          ((b0 mod 8) * 262144 + (b1 mod 64) * 4096
             + (b2 mod 64) * 64 + b3 mod 64)%N :: utf8_decode r3
        end
      end
    end
  end.

Definition u (s : string) : text :=
  utf8_decode (map (fun a => N_of_ascii a) (list_ascii_of_string s)).

(** ["\n"] *)
Definition nl : text := [10%N].

Definition text_eqb (a b : text) : bool :=
  if list_eq_dec N.eq_dec a b then true else false.

(** [str.isspace] on one code point, which is also the class [\s] of the
    [re] module on [str] patterns (CPython's [Py_UNICODE_ISSPACE]). *)
Definition is_space (c : N) : bool :=
  ((9 <=? c) && (c <=? 13) || (28 <=? c) && (c <=? 32)
   || (c =? 133) || (c =? 160) || (c =? 5760)
   || (8192 <=? c) && (c <=? 8202)
   || (c =? 8232) || (c =? 8233) || (c =? 8239) || (c =? 8287)
   || (c =? 12288))%N.

(** [s.lstrip()], [s.rstrip()], [s.strip()] *)
Fixpoint lstrip (s : text) : text :=
  match s with
  | c :: r => if is_space c then lstrip r else s
  | [] => []
  end.

Definition rstrip (s : text) : text := rev (lstrip (rev s)).

Definition strip (s : text) : text := rstrip (lstrip s).

(** [s.split(sep, 1)] for a one-character separator: the list of one or two
    pieces. *)
Fixpoint split1 (sep : N) (s : text) : list text :=
  match s with
  | [] => [[]]
  | c :: r =>
    if (c =? sep)%N then [[]; r]
    else match split1 sep r with
         | p :: ps => (c :: p) :: ps
         | [] => [[c]]
         end
  end.

(** [pre] is a prefix of [s] ([s.startswith(pre)]). *)
Fixpoint startswith (pre s : text) : bool :=
  match pre, s with
  | [], _ => true
  | p :: pre', c :: s' => (p =? c)%N && startswith pre' s'
  | _ :: _, [] => false
  end.

(** [sub in s] on strings. *)
Fixpoint contains (sub s : text) : bool :=
  startswith sub s ||
  match s with
  | [] => false
  | _ :: r => contains sub r
  end.

(** [s[:n]] for [n >= 0]. *)
Definition prefix_slice (n : nat) (s : text) : text := firstn n s.

(** [str(i)] for an [int]. *)
Definition str_of_int (i : Z) : text :=
  map (fun a => N_of_ascii a)
      (list_ascii_of_string (DecimalString.NilEmpty.string_of_int (Z.to_int i))).

(** A Python [str] is truthy when it is not empty. *)
Definition truthy (s : text) : bool :=
  match s with [] => false | _ => true end.

End Text.
Import Text.

(* ===================================================================== *)
(** * Regular expressions: the fragment of [re] used by [EMAIL_RE] *)
(* ===================================================================== *)

Module Re.

Inductive regex : Type :=
| Void : regex
| Eps : regex
| Cls (p : N -> bool) : regex          (* a character class *)
| Cat (r1 r2 : regex) : regex
| Alt (r1 r2 : regex) : regex
| Star (r : regex) : regex.

(** [r+] *)
Definition Plus (r : regex) : regex := Cat r (Star r).

(** a literal character *)
Definition Chr (c : N) : regex := Cls (N.eqb c).

Fixpoint nullable (r : regex) : bool :=
  match r with
  | Void => false
  | Eps => true
  | Cls _ => false
  | Cat r1 r2 => nullable r1 && nullable r2
  | Alt r1 r2 => nullable r1 || nullable r2
  | Star _ => true
  end.

Fixpoint deriv (c : N) (r : regex) : regex :=
  match r with
  | Void => Void
  | Eps => Void
  | Cls p => if p c then Eps else Void
  | Cat r1 r2 =>
    if nullable r1 then Alt (Cat (deriv c r1) r2) (deriv c r2)
    else Cat (deriv c r1) r2
  | Alt r1 r2 => Alt (deriv c r1) (deriv c r2)
  | Star r1 => Cat (deriv c r1) (Star r1)
  end.

(** The whole of [s] is matched by [r]. *)
Fixpoint fullmatch (r : regex) (s : text) : bool :=
  match s with
  | [] => nullable r
  | c :: s' => fullmatch (deriv c r) s'
  end.

(** The language of a regular expression. *)
Inductive Matches : regex -> text -> Prop :=
| MEps : Matches Eps []
| MCls p c : p c = true -> Matches (Cls p) [c]
| MCat r1 r2 s1 s2 :
    Matches r1 s1 -> Matches r2 s2 -> Matches (Cat r1 r2) (s1 ++ s2)
| MAltL r1 r2 s : Matches r1 s -> Matches (Alt r1 r2) s
| MAltR r1 r2 s : Matches r2 s -> Matches (Alt r1 r2) s
| MStar0 r : Matches (Star r) []
| MStarS r s1 s2 :
    Matches r s1 -> Matches (Star r) s2 -> Matches (Star r) (s1 ++ s2).

(** [re.compile("^" body "$").match(s)] is not [None]: [match] anchors at
    the start, and [$] (without [re.MULTILINE]) holds at the end of the
    string and just before a newline that ends the string. *)
Definition match_anchored (body : regex) (s : text) : bool :=
  fullmatch body s ||
  match rev s with
  | c :: r => (c =? 10)%N && fullmatch body (rev r)
  | [] => false
  end.

End Re.
Import Re.

(** [EMAIL_RE = re.compile(r"^[^\s@]+@[^\s@]+\.[^\s@]+$")] *)

(** the class [[^\s@]] *)
Definition not_space_at (c : N) : bool := negb (is_space c || (c =? 64)%N).

Definition EMAIL_BODY : regex :=
  Cat (Plus (Cls not_space_at))
      (Cat (Chr 64)
           (Cat (Plus (Cls not_space_at))
                (Cat (Chr 46) (Plus (Cls not_space_at))))).

(** [EMAIL_RE.match(s)] is truthy *)
Definition EMAIL_RE_match (s : text) : bool := match_anchored EMAIL_BODY s.


(* ===================================================================== *)
(** * Data model *)
(* ===================================================================== *)

(** An entry of the transcript and of a chat request:
    [{"role": role, "content": content}]. *)
Record Message := mkMessage { role : text; content : text }.

(** [context.user_data]: the per-user dict.  The program reads and writes
    it at four literal keys only, so it is a record of optional fields;
    [None] is an absent key. *)
Record UserData := mkUserData {
  ud_mem : option (list Message);     (* "mem" *)
  ud_lead_name : option text;         (* "lead_name" *)
  ud_lead_email : option text;        (* "lead_email" *)
  ud_lead_need : option text          (* "lead_need" *)
}.

Definition empty_user_data : UserData := mkUserData None None None None.

(** [d.get(key, default)] *)
Definition get {A} (field : option A) (default : A) : A :=
  match field with Some v => v | None => default end.

(** One entry of [SERVICES]. *)
Record Service := mkService { name : text; desc : text; starts_from : text }.

(** [update.effective_user] *)
Record User := mkUser { user_id : Z; username : option text }.

(** What the messaging library delivers.  A command is a message whose text
    starts with a bot command ([filters.COMMAND]); its name is the one
    [CommandHandler] compares.  A plain text is a new message accepted by
    [filters.TEXT & ~filters.COMMAND] (edited messages and channel posts are
    not modelled). *)
Inductive Payload :=
| Command (cmd : text) (full_text : text)
| PlainText (t : text)
| CallbackQuery (data : text).

(** An update, together with the value [datetime.utcnow().isoformat()] has
    while the update is handled. *)
Record Update := mkUpdate {
  effective_user : User;
  payload : Payload;
  utcnow_isoformat : text
}.

(** [update.message.text]; the handlers that read it are registered for
    messages only. *)
Definition message_text (upd : Update) : text :=
  match payload upd with
  | Command _ t => t
  | PlainText t => t
  | CallbackQuery _ => []
  end.

(** [update.callback_query.data] *)
Definition query_data (upd : Update) : text :=
  match payload upd with
  | CallbackQuery d => d
  | _ => []
  end.

(** [(COLLECT_NAME, COLLECT_EMAIL, COLLECT_NOTE) = range(3)] *)
Inductive Stage := COLLECT_NAME | COLLECT_EMAIL | COLLECT_NOTE.

(** What a handler returns to [ConversationHandler]: a stage,
    [ConversationHandler.END], or nothing. *)
Inductive HandlerResult :=
| Goto (s : Stage)
| END
| NoResult.

(** Environment-sourced configuration (module-level globals). *)
Record Config := mkConfig {
  COMPANY_NAME : text;
  OPENAI_API_KEY : option text;
  OPENAI_MODEL : text;
  USE_OLLAMA : bool;
  OLLAMA_MODEL : text
}.

(** ** Exceptions *)

Record exn := mkExn { exn_class : text; exn_str : text }.

Inductive outcome (A : Type) :=
| Returned (a : A)
| Raised (e : exn).
Arguments Returned {A} a.
Arguments Raised {A} e.

(** Sequencing of computations that may raise. *)
Definition obind {A B} (o : outcome A) (k : A -> outcome B) : outcome B :=
  match o with
  | Returned a => k a
  | Raised e => Raised e
  end.

Declare Scope outcome_scope.
Delimit Scope outcome_scope with outcome.
Bind Scope outcome_scope with outcome.
Notation "x <- c ;; k" := (obind c (fun x => k))
  (at level 61, c at next level, right associativity) : outcome_scope.

(** The exceptions the modelled operations raise, with the text [str(e)]
    has in CPython 3.11 (it is what the warnings log). *)
Definition IndexError : exn := mkExn (u "IndexError") (u "list index out of range").
Definition TypeError (msg : text) : exn := mkExn (u "TypeError") msg.
Definition AttributeError (msg : text) : exn := mkExn (u "AttributeError") msg.
Definition KeyError (key : text) : exn :=
  mkExn (u "KeyError") (u "'" ++ key ++ u "'").

(** [k in v] on a value of type [ty] that is no container *)
Definition not_iterable (ty : text) : exn :=
  TypeError (u "argument of type '" ++ ty ++ u "' is not iterable").
(** [v[k]] on a value of type [ty] that has no items *)
Definition not_subscriptable (ty : text) : exn :=
  TypeError (u "'" ++ ty ++ u "' object is not subscriptable").
(** [s[k]] on a string and [l[k]] on a list, for a string [k] *)
Definition str_indices : exn :=
  TypeError (u "string indices must be integers, not 'str'").
Definition list_indices : exn :=
  TypeError (u "list indices must be integers or slices, not str").
(** [v.strip()] on a value of type [ty] other than [str] *)
Definition no_strip (ty : text) : exn :=
  AttributeError (u "'" ++ ty ++ u "' object has no attribute 'strip'").

(** ** The generation backends *)

(** Request of [client.chat.completions.create] (the call also passes the
    constants [temperature=0.5] and [max_tokens=600]) and of the local
    [/api/chat] endpoint. *)
Record ChatRequest := mkChatRequest {
  req_model : text;
  req_messages : list Message
}.

(** [resp.choices], each with its [message.content] (which may be [None]). *)
Definition Completion := list (option text).

#[local] Set Warnings "-register-all".

(** A JSON value as [r.json()] returns it; the fields of an object have
    distinct keys, as in a dict. *)
Inductive Json :=
| JNull
| JBool (b : bool)
| JInt (n : Z)
| JFloat (lexeme : text)
| JStr (s : text)
| JArr (items : list Json)
| JObj (fields : list (text * Json)).

(** [type(v).__name__] *)
Definition json_type_name (v : Json) : text :=
  match v with
  | JNull => u "NoneType"
  | JBool _ => u "bool"
  | JInt _ => u "int"
  | JFloat _ => u "float"
  | JStr _ => u "str"
  | JArr _ => u "list"
  | JObj _ => u "dict"
  end.

(** The external collaborators of the provider chain.  Each call either
    returns or raises (import or client error, network error, timeout,
    unparseable payload). *)
Record Backends := mkBackends {
  (* lines 128-135: import, client construction and the chat call *)
  openai_create : ChatRequest -> outcome Completion;
  (* [requests.post(...)] followed by [r.json()] *)
  ollama_post_json : ChatRequest -> outcome Json;
  (* [json.dumps] *)
  json_dumps : Json -> text
}.

(** ** Observable effects *)

Record Button := mkButton { label : text; callback_data : text }.

Inductive Sent :=
| ReplyText (t : text) (reply_markup : option (list (list Button)))
| AnswerQuery
| EditMessageText (t : text) (parse_mode : option text).

Inductive Effect :=
| OpenAICall (req : ChatRequest)
| OllamaCall (req : ChatRequest)
| LogWarning (msg : text).

(** A row of the CSV file, one cell per column. *)
Definition Row := list text.

(** Everything a handler can read or change: the user's dict, the file
    [leads.csv] ([None] while it does not exist, else its rows, the header
    included), the messages handed to the messaging library, and the
    journal of backend calls and log records. *)
Record World := mkWorld {
  user_data : UserData;
  leads_csv : option (list Row);
  sent : list Sent;
  journal : list Effect
}.

Definition set_user_data (ud : UserData) (w : World) : World :=
  mkWorld ud (leads_csv w) (sent w) (journal w).
Definition set_leads_csv (f : option (list Row)) (w : World) : World :=
  mkWorld (user_data w) f (sent w) (journal w).

(** ** The monad of handlers: state and exceptions *)

Definition M (A : Type) : Type := World -> outcome A * World.

Definition ret {A} (a : A) : M A := fun w => (Returned a, w).

Definition bind {A B} (c : M A) (k : A -> M B) : M B :=
  fun w =>
    match c w with
    | (Returned a, w') => k a w'
    | (Raised e, w') => (Raised e, w')
    end.

Definition raise {A} (e : exn) : M A := fun w => (Raised e, w).

(** [try: body  except Exception as e: handler e] *)
Definition try_except {A} (body : M A) (handler : exn -> M A) : M A :=
  fun w =>
    match body w with
    | (Returned a, w') => (Returned a, w')
    | (Raised e, w') => handler e w'
    end.

(** Running a pure computation that may raise. *)
Definition lift {A} (o : outcome A) : M A := fun w => (o, w).

Declare Scope monad_scope.
Delimit Scope monad_scope with monad.
Notation "x <- c ;; k" := (bind c (fun x => k))
  (at level 61, c at next level, right associativity) : monad_scope.
Notation "c ;; k" := (bind c (fun _ => k))
  (at level 61, right associativity) : monad_scope.
Open Scope monad_scope.

Definition read_user_data : M UserData := fun w => (Returned (user_data w), w).
Definition write_user_data (ud : UserData) : M unit :=
  fun w => (Returned tt, set_user_data ud w).
Definition send (s : Sent) : M unit :=
  fun w => (Returned tt, mkWorld (user_data w) (leads_csv w) (sent w ++ [s]) (journal w)).
Definition record (e : Effect) : M unit :=
  fun w => (Returned tt, mkWorld (user_data w) (leads_csv w) (sent w) (journal w ++ [e])).

(** The world with more entries in its journal and nothing else changed. *)
Definition log_more (w : World) (j : list Effect) : World :=
  mkWorld (user_data w) (leads_csv w) (sent w) (journal w ++ j).

(** The world with more messages sent and nothing else changed. *)
Definition send_more (w : World) (m : list Sent) : World :=
  mkWorld (user_data w) (leads_csv w) (sent w ++ m) (journal w).

(** [update.message.reply_text(t)] *)
Definition reply_text (t : text) : M unit := send (ReplyText t None).

(* ===================================================================== *)
(** * Lead store *)
(* ===================================================================== *)

Definition HEADER : Row :=
  [u "timestamp"; u "name"; u "email"; u "need"; u "from"; u "username"; u "note"].

(** [os.path.exists(LEADS_CSV)] *)
Definition leads_exists : M bool :=
  fun w => (Returned (match leads_csv w with Some _ => true | None => false end), w).

(** [open(LEADS_CSV, "w")]: creates the file or truncates it. *)
Definition open_w : M unit := fun w => (Returned tt, set_leads_csv (Some []) w).

(** [open(LEADS_CSV, "a")]: creates the file when it is absent. *)
Definition open_a : M unit :=
  fun w => (Returned tt, set_leads_csv (Some (get (leads_csv w) [])) w).

(** [writer.writerow(row)] on the open file. *)
Definition writerow (row : Row) : M unit :=
  fun w => (Returned tt, set_leads_csv (Some (get (leads_csv w) [] ++ [row])) w).

Definition ensure_leads_csv : M unit :=
  ex <- leads_exists ;;
  if negb ex then
    open_w ;;
    writerow HEADER
  else ret tt.

(** [update.effective_user.username or ""] *)
Definition username_or_empty (usr : User) : text :=
  match username usr with
  | Some n => if truthy n then n else []
  | None => []
  end.

Definition save_lead (name_ email need : text) (upd : Update) (note : text)
  : M unit :=
  ensure_leads_csv ;;
  open_a ;;
  writerow [ utcnow_isoformat upd;
             name_;
             email;
             need;
             u "tg://user?id=" ++ str_of_int (user_id (effective_user upd));
             username_or_empty (effective_user upd);
             note ].

(* ===================================================================== *)
(** * Conversational memory *)
(* ===================================================================== *)

(** [l[i:]] for an [int] [i]: a negative index counts from the end, and
    the start is clamped to the list. *)
Definition slice_from {A} (i : Z) (l : list A) : list A :=
  let len := Z.of_nat (List.length l) in
  let start := if (i <? 0)%Z then Z.max (len + i) 0 else Z.min i len in
  skipn (Z.to_nat start) l.

Definition add_user_memory (role_ content_ : text) (limit : Z) : M unit :=
  ud <- read_user_data ;;
  let mem := get (ud_mem ud) [] in
  let mem := mem ++ [mkMessage role_ content_] in
  write_user_data
    (mkUserData (Some (slice_from (- limit) mem))
                (ud_lead_name ud) (ud_lead_email ud) (ud_lead_need ud)).

(** the default [limit: int = 6] *)
Definition default_limit : Z := 6.

(* ===================================================================== *)
(** * The service catalogue *)
(* ===================================================================== *)

(** [SERVICES]: a dict literal, kept as its items in insertion order (the
    keys are distinct). *)
Definition SERVICES : list (text * Service) :=
  [ (u "web",
     mkService (u "تطوير مواقع")
               (u "مواقع سريعة آمنة (Next.js/Django) مع لوحة تحكم وتهيئة SEO.")
               (u "1000$"));
    (u "mobile",
     mkService (u "تطبيقات جوال")
               (u "تطبيقات iOS/Android (Flutter/React Native) مع نشر للمتاجر.")
               (u "1500$"));
    (u "ai",
     mkService (u "حلول ذكاء اصطناعي")
               (u "بوتات محادثة، تلخيص تلقائي، تصنيف بيانات، وذكاء مدمج في المنتجات.")
               (u "1200$"));
    (u "uiux",
     mkService (u "UI/UX")
               (u "تصميم تجارب استخدام حديثة مع نماذج أولية تفاعلية.")
               (u "600$"));
    (u "maintenance",
     mkService (u "صيانة ودعم")
               (u "مراقبة، نسخ احتياطي، تحديثات أمنية، ودعم شهري.")
               (u "200$/شهر")) ].

(** [d.get(key)] on a dict given by its items. *)
Fixpoint dict_get {V} (key : text) (items : list (text * V)) : option V :=
  match items with
  | [] => None
  | (k, v) :: rest => if text_eqb k key then Some v else dict_get key rest
  end.

(** The message of a catalogue entry (lines 199-204). *)
Definition service_message (s : Service) : text :=
  u "**" ++ name s ++ u "**" ++ nl
  ++ desc s ++ nl ++ nl
  ++ u "السعر يبدأ من: " ++ starts_from s ++ u " (يتغير حسب المتطلبات)." ++ nl
  ++ u "أخبرني باحتياجك أو اكتب /contact لترك بياناتك.".

Definition SERVICE_ERROR : text := u "حدث خطأ — جرّب مرة أخرى.".

Definition on_service_click (upd : Update) : M HandlerResult :=
  send AnswerQuery ;;
  key <- match nth_error (split1 58 (query_data upd)) 1 with
         | Some k => ret k
         | None => raise IndexError
         end ;;
  match dict_get key SERVICES with
  | None =>
    send (EditMessageText SERVICE_ERROR None) ;;
    ret NoResult
  | Some s =>
    send (EditMessageText (service_message s) (Some (u "Markdown"))) ;;
    ret NoResult
  end.

Definition services (upd : Update) : M HandlerResult :=
  let keyboard :=
    map (fun ks => [mkButton (name (snd ks)) (u "svc:" ++ fst ks)]) SERVICES in
  send (ReplyText (u "اختر الخدمة التي تهمك:") (Some keyboard)) ;;
  ret NoResult.

(* ===================================================================== *)
(** * The lead-collection conversation *)
(* ===================================================================== *)

Definition DEFAULT_NEED : text := u "عام".

Definition contact_start (upd : Update) : M HandlerResult :=
  ud <- read_user_data ;;
  write_user_data
    (mkUserData (ud_mem ud) (ud_lead_name ud) (ud_lead_email ud)
                (Some DEFAULT_NEED)) ;;
  reply_text (u "سنأخذ بعض البيانات البسيطة. ما اسمك الكامل؟") ;;
  ret (Goto COLLECT_NAME).

Definition collect_name (upd : Update) : M HandlerResult :=
  ud <- read_user_data ;;
  write_user_data
    (mkUserData (ud_mem ud) (Some (strip (message_text upd)))
                (ud_lead_email ud) (ud_lead_need ud)) ;;
  reply_text (u "بريدك الإلكتروني؟") ;;
  ret (Goto COLLECT_EMAIL).

Definition EMAIL_REPROMPT : text := u "صيغة البريد غير صحيحة — أعد إدخاله.".
Definition NOTE_PROMPT : text := u "صف باختصار احتياجك أو نوع المشروع:".

Definition collect_email (upd : Update) : M HandlerResult :=
  let email := strip (message_text upd) in
  if negb (EMAIL_RE_match email) then
    reply_text EMAIL_REPROMPT ;;
    ret (Goto COLLECT_EMAIL)
  else
    ud <- read_user_data ;;
    write_user_data
      (mkUserData (ud_mem ud) (ud_lead_name ud) (Some email)
                  (ud_lead_need ud)) ;;
    reply_text NOTE_PROMPT ;;
    ret (Goto COLLECT_NOTE).

Definition THANKS : text :=
  u "شكرًا لك! تم استلام بياناتك وسنتواصل معك قريبًا عبر البريد.".

Definition collect_note (upd : Update) : M HandlerResult :=
  let note := strip (message_text upd) in
  ud <- read_user_data ;;
  let name_ := get (ud_lead_name ud) [] in
  let email := get (ud_lead_email ud) [] in
  let need := get (ud_lead_need ud) DEFAULT_NEED in
  save_lead name_ email need upd note ;;
  reply_text THANKS ;;
  ret END.

Definition CANCELLED : text :=
  u "تم إلغاء العملية. يمكنك البدء من جديد في أي وقت.".

Definition cancel (upd : Update) : M HandlerResult :=
  reply_text CANCELLED ;;
  ret END.

(* ===================================================================== *)
(** * The response provider chain *)
(* ===================================================================== *)

(** [k in v] for a JSON value [v]: a key of a dict, a substring of a
    string, an element of a list; [TypeError] on anything else. *)
Definition json_contains (k : text) (v : Json) : outcome bool :=
  match v with
  | JObj fields => Returned (existsb (fun kv => text_eqb (fst kv) k) fields)
  | JStr s => Returned (contains k s)
  | JArr items =>
    Returned (existsb (fun x => match x with
                                | JStr s => text_eqb s k
                                | _ => false
                                end) items)
  | _ => Raised (not_iterable (json_type_name v))
  end.

(** [v[k]] for a string key [k]. *)
Definition json_getitem (v : Json) (k : text) : outcome Json :=
  match v with
  | JObj fields =>
    match dict_get k fields with
    | Some x => Returned x
    | None => Raised (KeyError k)
    end
  | JStr _ => Raised str_indices
  | JArr _ => Raised list_indices
  | _ => Raised (not_subscriptable (json_type_name v))
  end.

(** [v.strip()] *)
Definition json_strip (v : Json) : outcome text :=
  match v with
  | JStr s => Returned (strip s)
  | _ => Raised (no_strip (json_type_name v))
  end.

(** [isinstance(data, dict) and "message" in data
     and "content" in data["message"]] *)
Definition has_message_content (data : Json) : outcome bool :=
  match data with
  | JObj fields =>
    match dict_get (u "message") fields with
    | Some m => json_contains (u "content") m
    | None => Returned false
    end
  | _ => Returned false
  end.

(** The reply of the third branch (lines 158-163). *)
Definition offline_template (user_text : text) : text :=
  u "> رد ذكي مبسّط (بدون API)" ++ nl
  ++ u "فهمت طلبك: " ++ user_text ++ nl ++ nl
  ++ u "يمكننا تنفيذ الحل عبر: Frontend (Next.js) + Backend (FastAPI) + قاعدة بيانات PostgreSQL + استضافة Docker." ++ nl
  ++ u "للحصول على عرض دقيق اكتب /contact وارسل بريدك ونبذة عن مشروعك.".

Section Bot.

Variable cfg : Config.
Variable net : Backends.

Definition system_prompt : text :=
  strip
    (nl ++ u "    أنت مساعد احترافي يتحدث العربية بطلاقة، يعمل لدى "
        ++ COMPANY_NAME cfg ++ u "." ++ nl
     ++ u "    مهامك:" ++ nl
     ++ u "    - فهم احتياج العميل واقتراح حلول برمجية عملية مع خطوات واضحة." ++ nl
     ++ u "    - توضيح التقنيات المناسبة (مثال: React/Next.js، Django/FastAPI، Flutter، PostgreSQL، Docker)." ++ nl
     ++ u "    - إذا طلب العميل سعراً، أعطه مدى تقريبي واطلب تفاصيل أكثر." ++ nl
     ++ u "    - شجّعه على مشاركة بريده لإرسال عرض مفصل عبر الأمر /contact." ++ nl
     ++ u "    ").

(** [if OPENAI_API_KEY:] *)
Definition openai_configured : bool :=
  match OPENAI_API_KEY cfg with
  | Some k => truthy k
  | None => false
  end.

(** [[{"role": "system", ...}] + mem + [{"role": "user", ...}]] *)
Definition chat_messages (user_text : text) (ud : UserData) : list Message :=
  [mkMessage (u "system") system_prompt] ++ get (ud_mem ud) []
  ++ [mkMessage (u "user") user_text].

(** What the body of the first [try] (lines 128-136) evaluates to. *)
Definition openai_reply (req : ChatRequest) : outcome text :=
  (resp <- openai_create net req ;;
   match resp with
   | [] => Raised IndexError                   (* resp.choices[0] *)
   | None :: _ => Raised (no_strip (u "NoneType"))  (* None.strip() *)
   | Some c :: _ => Returned (strip c)
   end)%outcome.

Definition openai_attempt (messages : list Message) : M text :=
  let req := mkChatRequest (OPENAI_MODEL cfg) messages in
  record (OpenAICall req) ;;
  lift (openai_reply req).

(** What the body of the second [try] (lines 143-153) evaluates to. *)
Definition ollama_reply (req : ChatRequest) : outcome text :=
  (data <- ollama_post_json net req ;;
   shaped <- has_message_content data ;;
   if shaped then
     m <- json_getitem data (u "message") ;;
     c <- json_getitem m (u "content") ;;
     json_strip c
   else
     Returned (prefix_slice 800 (json_dumps net data)))%outcome.

Definition ollama_attempt (messages : list Message) : M text :=
  let req := mkChatRequest (OLLAMA_MODEL cfg) messages in
  record (OllamaCall req) ;;
  lift (ollama_reply req).

(** A guarded provider: [Some reply] when the [try] body returned, [None]
    when the provider is off or its body raised (the exception is logged
    and control falls through). *)
Definition guarded (enabled : bool) (tag : text) (body : M text)
  : M (option text) :=
  if enabled then
    try_except (r <- body ;; ret (Some r))
               (fun e => record (LogWarning (tag ++ exn_str e)) ;; ret None)
  else ret None.

Definition ai_generate_reply (user_text : text) : M text :=
  ud <- read_user_data ;;
  let messages := chat_messages user_text ud in
  (* 1) OpenAI *)
  r1 <- guarded openai_configured (u "OpenAI error: ") (openai_attempt messages) ;;
  match r1 with
  | Some reply => ret reply
  | None =>
    (* 2) Ollama *)
    r2 <- guarded (USE_OLLAMA cfg) (u "Ollama error: ") (ollama_attempt messages) ;;
    match r2 with
    | Some reply => ret reply
    | None =>
      (* 3) offline *)
      ret (offline_template user_text)
    end
  end.

(* ===================================================================== *)
(** * Commands and the dispatcher *)
(* ===================================================================== *)

Definition start (upd : Update) : M HandlerResult :=
  add_user_memory (u "assistant") (u "مرحبا! أنا بوت الشركة.") default_limit ;;
  let t :=
    u "أهلًا بك مع " ++ COMPANY_NAME cfg ++ u "!" ++ nl ++ nl
    ++ u "أستطيع مساعدتك في: تطوير مواقع، تطبيقات الجوال، حلول الذكاء الاصطناعي، التصميم UI/UX، والصيانة." ++ nl ++ nl
    ++ u "استخدم الأوامر التالية:" ++ nl
    ++ u "/services — عرض الخدمات" ++ nl
    ++ u "/contact — ترك بياناتك لنرجع إليك" ++ nl
    ++ u "أو اسألني أي سؤال حاليًا." in
  reply_text t ;;
  ret NoResult.

Definition ai_reply (upd : Update) : M HandlerResult :=
  let user_text := message_text upd in
  add_user_memory (u "user") user_text default_limit ;;
  reply <- ai_generate_reply user_text ;;
  add_user_memory (u "assistant") reply default_limit ;;
  reply_text reply ;;
  ret NoResult.

(** The state [ConversationHandler] keeps for a conversation ([None] when
    none is active, the state the specification calls Idle), next to the
    world.  The model follows one user in one chat. *)
Record App := mkApp { conversation : option Stage; world : World }.

(** [conv_handler]: without a conversation only the entry point is tried;
    inside one, the handler of the current stage, then the fallbacks. *)
Definition conv_handler (st : option Stage) (upd : Update)
  : option (M HandlerResult) :=
  match st, payload upd with
  | None, Command c _ =>
    if text_eqb c (u "contact") then Some (contact_start upd) else None
  | None, _ => None
  | Some COLLECT_NAME, PlainText _ => Some (collect_name upd)
  | Some COLLECT_EMAIL, PlainText _ => Some (collect_email upd)
  | Some COLLECT_NOTE, PlainText _ => Some (collect_note upd)
  | Some _, Command c _ =>
    if text_eqb c (u "cancel") then Some (cancel upd) else None
  | Some _, CallbackQuery _ => None
  end.

Inductive Route :=
| Plain (h : M HandlerResult)         (* an ordinary handler *)
| Conversation (h : M HandlerResult)  (* a handler of [conv_handler] *)
| Unhandled.

Definition is_command (c : text) (upd : Update) : bool :=
  match payload upd with
  | Command c' _ => text_eqb c' c
  | _ => false
  end.

(** The handlers in the order [main] adds them; the first whose check
    accepts the update handles it. *)
Definition route (st : option Stage) (upd : Update) : Route :=
  if is_command (u "start") upd then Plain (start upd)
  else if is_command (u "services") upd then Plain (services upd)
  else if match payload upd with
          | CallbackQuery d => startswith (u "svc:") d
          | _ => false
          end then Plain (on_service_click upd)
  else match conv_handler st upd with
       | Some h => Conversation h
       | None =>
         match payload upd with
         | PlainText _ => Plain (ai_reply upd)
         | _ => Unhandled
         end
       end.

(** Handling one update.  A stage returned by a conversation handler
    becomes the state, [END] ends the conversation; a handler that raises
    leaves the conversation state as it was. *)
Definition process_update (upd : Update) (app : App) : App :=
  match route (conversation app) upd with
  | Unhandled => app
  | Plain h => mkApp (conversation app) (snd (h (world app)))
  | Conversation h =>
    match h (world app) with
    | (Returned (Goto s), w) => mkApp (Some s) w
    | (Returned END, w) => mkApp None w
    | (Returned NoResult, w) => mkApp (conversation app) w
    | (Raised _, w) => mkApp (conversation app) w
    end
  end.

Definition run (upds : list Update) (app : App) : App :=
  fold_left (fun a upd => process_update upd a) upds app.

End Bot.

(** The rows [ensure_leads_csv] leaves in the file: the header alone when
    the file was absent, the rows it had otherwise. *)
Definition initialized (f : option (list Row)) : list Row :=
  match f with
  | None => [HEADER]
  | Some rows => rows
  end.

(** The row [save_lead] writes. *)
Definition lead_row (upd : Update) (name_ email need note : text) : Row :=
  [ utcnow_isoformat upd; name_; email; need;
    u "tg://user?id=" ++ str_of_int (user_id (effective_user upd));
    username_or_empty (effective_user upd); note ].

(** The shape the specification gives for an e-mail address, in its words:
    non-whitespace characters, one "@", non-whitespace characters, a ".",
    and more non-whitespace characters. *)
Definition spec_word (x : text) : Prop :=
  x <> [] /\ forall c, In c x -> is_space c = false /\ c <> 64%N.

Definition spec_email_shape (s : text) : Prop :=
  exists local_ domain tld,
    s = local_ ++ [64%N] ++ domain ++ [46%N] ++ tld
    /\ spec_word local_ /\ spec_word domain /\ spec_word tld.

(** [snapshot]: the user's current transcript. *)
Definition transcript (w : World) : list Message := get (ud_mem (user_data w)) [].

(** A sequence of [add_user_memory] calls, each with the default limit. *)
Fixpoint remember_all (entries : list Message) (w : World) : World :=
  match entries with
  | [] => w
  | e :: rest =>
    remember_all rest (snd (add_user_memory (role e) (content e) default_limit w))
  end.

(* ===================================================================== *)
(** * The conversation as a state machine *)
(* ===================================================================== *)

(** The edges of the flow: a state may stay, advance by one stage, or be
    left for Idle ([None]). *)
Definition flow_edge (s s' : option Stage) : Prop :=
  s' = s
  \/ (s = None /\ s' = Some COLLECT_NAME)
  \/ (s = Some COLLECT_NAME /\ s' = Some COLLECT_EMAIL)
  \/ (s = Some COLLECT_EMAIL /\ s' = Some COLLECT_NOTE)
  \/ (s <> None /\ s' = None).

(** The lead fields of the user's dict and the lead log are the same in
    both worlds. *)
Definition same_leads (w w' : World) : Prop :=
  leads_csv w' = leads_csv w
  /\ ud_lead_name (user_data w') = ud_lead_name (user_data w)
  /\ ud_lead_email (user_data w') = ud_lead_email (user_data w)
  /\ ud_lead_need (user_data w') = ud_lead_need (user_data w).

(** What a stage of the flow has collected so far. *)
Definition collected (app : App) : Prop :=
  let ud := user_data (world app) in
  match conversation app with
  | None => True
  | Some COLLECT_NAME => ud_lead_need ud = Some DEFAULT_NEED
  | Some COLLECT_EMAIL =>
    ud_lead_need ud = Some DEFAULT_NEED
    /\ exists typed, ud_lead_name ud = Some (strip typed)
  | Some COLLECT_NOTE =>
    ud_lead_need ud = Some DEFAULT_NEED
    /\ (exists typed, ud_lead_name ud = Some (strip typed))
    /\ exists email, ud_lead_email ud = Some email /\ spec_email_shape email
  end.

(** The kinds of step [process_update] can take. *)
Inductive Step (upd : Update) (app app' : App) : Prop :=
| StepOutside :
    conversation app' = conversation app ->
    same_leads (world app) (world app') ->
    Step upd app app'
| StepContact :
    conversation app = None ->
    conversation app' = Some COLLECT_NAME ->
    leads_csv (world app') = leads_csv (world app) ->
    ud_lead_need (user_data (world app')) = Some DEFAULT_NEED ->
    Step upd app app'
| StepName typed :
    payload upd = PlainText typed ->
    conversation app = Some COLLECT_NAME ->
    conversation app' = Some COLLECT_EMAIL ->
    leads_csv (world app') = leads_csv (world app) ->
    ud_lead_name (user_data (world app')) = Some (strip typed) ->
    ud_lead_need (user_data (world app')) = ud_lead_need (user_data (world app)) ->
    Step upd app app'
| StepEmail typed :
    payload upd = PlainText typed ->
    conversation app = Some COLLECT_EMAIL ->
    conversation app' = Some COLLECT_NOTE ->
    spec_email_shape (strip typed) ->
    leads_csv (world app') = leads_csv (world app) ->
    ud_lead_email (user_data (world app')) = Some (strip typed) ->
    ud_lead_name (user_data (world app')) = ud_lead_name (user_data (world app)) ->
    ud_lead_need (user_data (world app')) = ud_lead_need (user_data (world app)) ->
    Step upd app app'
| StepNote typed :
    payload upd = PlainText typed ->
    conversation app = Some COLLECT_NOTE ->
    conversation app' = None ->
    user_data (world app') = user_data (world app) ->
    leads_csv (world app')
    = Some (initialized (leads_csv (world app))
            ++ [lead_row upd
                  (get (ud_lead_name (user_data (world app))) [])
                  (get (ud_lead_email (user_data (world app))) [])
                  (get (ud_lead_need (user_data (world app))) DEFAULT_NEED)
                  (strip typed)]) ->
    sent (world app') = sent (world app) ++ [ReplyText THANKS None] ->
    Step upd app app'
| StepCancel :
    is_command (u "cancel") upd = true ->
    conversation app <> None ->
    conversation app' = None ->
    user_data (world app') = user_data (world app) ->
    leads_csv (world app') = leads_csv (world app) ->
    sent (world app') = sent (world app) ++ [ReplyText CANCELLED None] ->
    Step upd app app'.

(* ===================================================================== *)
(** * Sample inputs *)
(* ===================================================================== *)

Definition ali : User := mkUser 42 (Some (u "ali_dev")).
Definition now0 : text := u "2024-05-01T10:00:00".
Definition world0 : World := mkWorld empty_user_data None [] [].

Definition offline_cfg : Config :=
  mkConfig (u "شركة برمجيات") None (u "gpt-4o-mini") false (u "llama3.1").
Definition hosted_cfg : Config :=
  mkConfig (u "شركة برمجيات") (Some (u "sk-test")) (u "gpt-4o-mini") false
           (u "llama3.1").
Definition both_cfg : Config :=
  mkConfig (u "شركة برمجيات") (Some (u "sk-test")) (u "gpt-4o-mini") true
           (u "llama3.1").

Definition timed_out : exn := mkExn (u "Timeout") (u "timed out").

(** Both backends unreachable. *)
Definition net_down : Backends :=
  mkBackends (fun _ => Raised timed_out) (fun _ => Raised timed_out)
             (fun _ => u "null").
(** The hosted backend answers. *)
Definition net_hosted : Backends :=
  mkBackends (fun _ => Returned [Some (u " hello ")]) (fun _ => Raised timed_out)
             (fun _ => u "null").
(** The hosted backend times out and the local one answers with an empty
    completion: [{"message": {"content": ""}}]. *)
Definition net_local_blank : Backends :=
  mkBackends (fun _ => Raised timed_out)
             (fun _ => Returned (JObj [(u "message", JObj [(u "content", JStr [])])]))
             (fun _ => u "null").

Definition contact_cmd : Payload := Command (u "contact") (u "/contact").
Definition cancel_cmd : Payload := Command (u "cancel") (u "/cancel").

(* ===================================================================== *)
(** * Statements in the specification's words *)
(* ===================================================================== *)

(** The column header as section 4.1 of the specification lists it. *)
Definition SPEC_HEADER : Row :=
  [u "timestamp"; u "name"; u "email"; u "need"; u "contact_handle";
   u "username"; u "note"].

Definition header_as_specified : Prop :=
  forall w, leads_csv w = None ->
    leads_csv (snd (ensure_leads_csv w)) = Some [SPEC_HEADER].

(** Every call of the generator returns a non-empty text. *)
Definition reply_always_nonempty : Prop :=
  forall cfg net user_text w,
    exists reply w',
      ai_generate_reply cfg net user_text w = (Returned reply, w')
      /\ reply <> [].

(** Cancelling ends the conversation, acknowledges, writes nothing and
    leaves no session field behind. *)
Definition cancel_discards_session : Prop :=
  forall cfg net usr now s w,
    let app' := process_update cfg net (mkUpdate usr cancel_cmd now)
                               (mkApp (Some s) w) in
    conversation app' = None
    /\ sent (world app') = sent w ++ [ReplyText CANCELLED None]
    /\ leads_csv (world app') = leads_csv w
    /\ ud_lead_name (user_data (world app')) = None
    /\ ud_lead_email (user_data (world app')) = None
    /\ ud_lead_need (user_data (world app')) = None.

(** The e-mail stage as the specification words it, on the text as it
    was typed: a text of the e-mail shape is stored and the flow advances;
    any other text is answered by the re-prompt and nothing changes. *)
Definition email_stage_on_typed_text : Prop :=
  forall cfg net usr now t w,
    let upd := mkUpdate usr (PlainText t) now in
    let app' := process_update cfg net upd (mkApp (Some COLLECT_EMAIL) w) in
    (spec_email_shape t ->
       conversation app' = Some COLLECT_NOTE /\
       ud_lead_email (user_data (world app')) = Some t) /\
    (~ spec_email_shape t ->
       conversation app' = Some COLLECT_EMAIL /\
       user_data (world app') = user_data w).

(** The entries of the journal that are calls of a backend. *)
Definition is_openai_call (e : Effect) : bool :=
  match e with OpenAICall _ => true | _ => false end.
Definition is_ollama_call (e : Effect) : bool :=
  match e with OllamaCall _ => true | _ => false end.

(** A text made of whitespace only ([s.isspace()] or [s == ""]). *)
Definition blank (s : text) : bool := forallb is_space s.

(* ===================================================================== *)
(** * Properties of text operations *)
(* ===================================================================== *)

Lemma text_eqb_eq a b : text_eqb a b = true <-> a = b.
Proof.
  unfold text_eqb. destruct (list_eq_dec N.eq_dec a b); split; congruence.
Qed.

Lemma text_eqb_refl a : text_eqb a a = true.
Proof. now apply text_eqb_eq. Qed.

Lemma lstrip_head s c r : lstrip s = c :: r -> is_space c = false.
Proof.
  induction s as [|a s IH]; simpl; [discriminate|].
  destruct (is_space a) eqn:E; [exact IH|].
  intros H; injection H as -> _; exact E.
Qed.

Lemma strip_last s c r : rev (strip s) = c :: r -> is_space c = false.
Proof.
  unfold strip, rstrip. rewrite rev_involutive. apply lstrip_head.
Qed.

Lemma lstrip_id s : (forall c r, s = c :: r -> is_space c = false) -> lstrip s = s.
Proof.
  destruct s as [|a s]; simpl; [reflexivity|].
  intros H. now rewrite (H a s eq_refl).
Qed.

Lemma startswith_app pre s : startswith pre (pre ++ s) = true.
Proof.
  induction pre as [|p pre IH]; simpl; [reflexivity|].
  now rewrite N.eqb_refl.
Qed.

Lemma startswith_inv pre s :
  startswith pre s = true -> exists rest, s = pre ++ rest.
Proof.
  revert s; induction pre as [|p pre IH]; intros s H.
  - now exists s.
  - destruct s as [|c s]; simpl in H; [discriminate|].
    apply andb_prop in H as [Hc Hs]. apply N.eqb_eq in Hc as ->.
    destruct (IH _ Hs) as [rest ->]. now exists rest.
Qed.

Lemma contains_here sub s : startswith sub s = true -> contains sub s = true.
Proof.
  intros H. destruct s; simpl; now rewrite H.
Qed.

Lemma contains_app sub a b : contains sub (a ++ sub ++ b) = true.
Proof.
  induction a as [|c a IH].
  - change ([] ++ sub ++ b) with (sub ++ b).
    apply contains_here. apply startswith_app.
  - simpl. rewrite IH. apply orb_true_r.
Qed.

(* ===================================================================== *)
(** * Correctness of the matcher *)
(* ===================================================================== *)

Module ReFacts.

Lemma Matches_nil_nullable r s : Matches r s -> s = [] -> nullable r = true.
Proof.
  induction 1; intros E; simpl; try reflexivity; try discriminate.
  - apply app_eq_nil in E as [-> ->]. now rewrite IHMatches1, IHMatches2.
  - now rewrite IHMatches.
  - rewrite IHMatches by assumption. apply orb_true_r.
Qed.

Lemma nullable_Matches r : nullable r = true -> Matches r [].
Proof.
  induction r; simpl; intros H; try discriminate.
  - constructor.
  - apply andb_prop in H as [H1 H2].
    change (@nil N) with (@nil N ++ []). constructor; auto.
  - apply orb_prop in H as [H|H]; [apply MAltL | apply MAltR]; auto.
  - constructor.
Qed.

Lemma deriv_sound c r : forall s, Matches (deriv c r) s -> Matches r (c :: s).
Proof.
  induction r; simpl; intros s H.
  - inversion H.
  - inversion H.
  - destruct (p c) eqn:E; inversion H; subst. now constructor.
  - destruct (nullable r1) eqn:N1.
    + inversion H; subst.
      * match goal with X : Matches (Cat _ _) _ |- _ => inversion X; subst end.
        change (c :: s1 ++ s2) with ((c :: s1) ++ s2). constructor; auto.
      * change (c :: s) with ([] ++ c :: s).
        constructor; [now apply nullable_Matches | auto].
    + inversion H; subst.
      change (c :: s1 ++ s2) with ((c :: s1) ++ s2). constructor; auto.
  - inversion H; subst; [apply MAltL | apply MAltR]; auto.
  - inversion H; subst.
    change (c :: s1 ++ s2) with ((c :: s1) ++ s2). constructor; auto.
Qed.

Lemma deriv_complete c r s' :
  Matches r s' -> forall s, s' = c :: s -> Matches (deriv c r) s.
Proof.
  induction 1; intros t E; simpl; try discriminate.
  - injection E as -> <-. rewrite H. constructor.
  - destruct s1 as [|a s1]; simpl in E.
    + subst s2. rewrite (Matches_nil_nullable _ _ H eq_refl).
      apply MAltR. now apply IHMatches2.
    + injection E as -> <-.
      destruct (nullable r1); [apply MAltL|]; constructor; auto.
  - apply MAltL; auto.
  - apply MAltR; auto.
  - destruct s1 as [|a s1]; simpl in E.
    + now apply IHMatches2.
    + injection E as -> <-. constructor; auto.
Qed.

Lemma fullmatch_spec s : forall r, fullmatch r s = true <-> Matches r s.
Proof.
  induction s as [|c s IH]; intros r; simpl.
  - split; [apply nullable_Matches | intros H; now apply (Matches_nil_nullable _ _ H)].
  - rewrite IH. split; [apply deriv_sound | intros H; now apply (deriv_complete c _ _ H)].
Qed.

Lemma Matches_Cat r1 r2 s :
  Matches (Cat r1 r2) s <->
  exists s1 s2, s = s1 ++ s2 /\ Matches r1 s1 /\ Matches r2 s2.
Proof.
  split.
  - intros H; inversion H; subst; eauto.
  - intros (s1 & s2 & -> & H1 & H2). now constructor.
Qed.

Lemma Matches_Cls p s : Matches (Cls p) s <-> exists c, s = [c] /\ p c = true.
Proof.
  split.
  - intros H; inversion H; subst; eauto.
  - intros (c & -> & H). now constructor.
Qed.

Lemma Matches_Chr c s : Matches (Chr c) s <-> s = [c].
Proof.
  unfold Chr. rewrite Matches_Cls. split.
  - intros (d & -> & H). apply N.eqb_eq in H. now subst.
  - intros ->. exists c. now rewrite N.eqb_refl.
Qed.

Lemma Matches_Star_Cls p s : Matches (Star (Cls p)) s <-> forallb p s = true.
Proof.
  split.
  - intros H. remember (Star (Cls p)) as r eqn:Er.
    induction H; try discriminate; [reflexivity|].
    injection Er as ->. inversion H; subst. simpl.
    rewrite IHMatches2 by reflexivity.
    match goal with X : p _ = true |- _ => now rewrite X end.
  - induction s as [|c s IH]; simpl; intros H; [constructor|].
    apply andb_prop in H as [Hc Hs].
    change (c :: s) with ([c] ++ s). constructor; [now constructor | auto].
Qed.

Lemma Matches_Plus_Cls p s :
  Matches (Plus (Cls p)) s <-> s <> [] /\ forallb p s = true.
Proof.
  unfold Plus. rewrite Matches_Cat. split.
  - intros (s1 & s2 & -> & H1 & H2).
    apply Matches_Cls in H1 as (c & -> & Hc).
    apply Matches_Star_Cls in H2. simpl. rewrite Hc, H2. now split.
  - intros [Hne H]. destruct s as [|c s]; [congruence|].
    simpl in H. apply andb_prop in H as [Hc Hs].
    exists [c], s. repeat split.
    + apply Matches_Cls. eauto.
    + now apply Matches_Star_Cls.
Qed.

End ReFacts.

(* ===================================================================== *)
(** * The e-mail pattern *)
(* ===================================================================== *)

Lemma spec_word_forallb x :
  spec_word x <-> x <> [] /\ forallb not_space_at x = true.
Proof.
  unfold spec_word. split; intros [Hne H]; split; auto.
  - apply forallb_forall. intros c Hc. destruct (H c Hc) as [Hs Ha].
    unfold not_space_at. rewrite Hs. simpl.
    apply negb_true_iff. now apply N.eqb_neq.
  - intros c Hc. rewrite forallb_forall in H. specialize (H c Hc).
    unfold not_space_at in H. apply negb_true_iff, orb_false_iff in H.
    destruct H as [Hs Ha]. split; [exact Hs | now apply N.eqb_neq].
Qed.

(** The body of [EMAIL_RE] matches exactly the texts of the e-mail shape. *)
Lemma EMAIL_BODY_shape s : fullmatch EMAIL_BODY s = true <-> spec_email_shape s.
Proof.
  rewrite ReFacts.fullmatch_spec. unfold EMAIL_BODY, spec_email_shape. split.
  - intros H.
    apply ReFacts.Matches_Cat in H as (l & s1 & -> & Hl & H).
    apply ReFacts.Matches_Cat in H as (a & s2 & -> & Ha & H).
    apply ReFacts.Matches_Cat in H as (d & s3 & -> & Hd & H).
    apply ReFacts.Matches_Cat in H as (p & t & -> & Hp & Ht).
    apply ReFacts.Matches_Chr in Ha as ->. apply ReFacts.Matches_Chr in Hp as ->.
    apply ReFacts.Matches_Plus_Cls in Hl, Hd, Ht.
    exists l, d, t. rewrite !spec_word_forallb. auto.
  - intros (l & d & t & -> & Hl & Hd & Ht).
    rewrite spec_word_forallb in Hl, Hd, Ht.
    apply ReFacts.Matches_Cat. exists l, ([64%N] ++ d ++ [46%N] ++ t).
    split; [reflexivity|]. split; [now apply ReFacts.Matches_Plus_Cls|].
    apply ReFacts.Matches_Cat. exists [64%N], (d ++ [46%N] ++ t).
    split; [reflexivity|]. split; [now apply ReFacts.Matches_Chr|].
    apply ReFacts.Matches_Cat. exists d, ([46%N] ++ t).
    split; [reflexivity|]. split; [now apply ReFacts.Matches_Plus_Cls|].
    apply ReFacts.Matches_Cat. exists [46%N], t.
    split; [reflexivity|]. split; [now apply ReFacts.Matches_Chr|].
    now apply ReFacts.Matches_Plus_Cls.
Qed.

(** What [EMAIL_RE.match] accepts on any text: the shape, possibly followed
    by one final newline (the reading of [$]). *)
Lemma EMAIL_RE_match_spec s :
  EMAIL_RE_match s = true <->
  spec_email_shape s \/ exists s', s = s' ++ [10%N] /\ spec_email_shape s'.
Proof.
  unfold EMAIL_RE_match, match_anchored. rewrite orb_true_iff, EMAIL_BODY_shape.
  split; (intros [H|H]; [now left | right]).
  - destruct (rev s) as [|c r] eqn:E; [discriminate|].
    apply andb_prop in H as [Hc Hr]. apply N.eqb_eq in Hc as ->.
    exists (rev r). split; [|now apply EMAIL_BODY_shape].
    rewrite <- (rev_involutive s), E. reflexivity.
  - destruct H as (s' & -> & Hs'). rewrite rev_app_distr. simpl.
    rewrite rev_involutive. now apply EMAIL_BODY_shape.
Qed.

(** On a trimmed text the final-newline case cannot arise. *)
Lemma EMAIL_RE_match_strip t :
  EMAIL_RE_match (strip t) = true <-> spec_email_shape (strip t).
Proof.
  rewrite EMAIL_RE_match_spec. split; [|now left].
  intros [H|(s' & E & _)]; [exact H|].
  assert (Hr : rev (strip t) = 10%N :: rev s').
  { rewrite E, rev_app_distr. reflexivity. }
  apply strip_last in Hr. discriminate.
Qed.

Lemma spec_email_shape_head s c r :
  spec_email_shape s -> s = c :: r -> is_space c = false.
Proof.
  intros (l & d & t & -> & [Hne Hl] & _) E.
  destruct l as [|a l]; [congruence|].
  injection E as -> _. apply Hl. now left.
Qed.

(* ===================================================================== *)
(** * The dispatcher on a plain text inside the conversation *)
(* ===================================================================== *)

Lemma route_text_in_stage cfg net usr now t s :
  route cfg net (Some s) (mkUpdate usr (PlainText t) now) =
  Conversation
    (match s with
     | COLLECT_NAME => collect_name (mkUpdate usr (PlainText t) now)
     | COLLECT_EMAIL => collect_email (mkUpdate usr (PlainText t) now)
     | COLLECT_NOTE => collect_note (mkUpdate usr (PlainText t) now)
     end).
Proof. destruct s; reflexivity. Qed.

Lemma collect_email_run usr now t w :
  collect_email (mkUpdate usr (PlainText t) now) w =
  if EMAIL_RE_match (strip t)
  then (Returned (Goto COLLECT_NOTE),
        mkWorld (mkUserData (ud_mem (user_data w)) (ud_lead_name (user_data w))
                            (Some (strip t)) (ud_lead_need (user_data w)))
                (leads_csv w) (sent w ++ [ReplyText NOTE_PROMPT None]) (journal w))
  else (Returned (Goto COLLECT_EMAIL),
        mkWorld (user_data w) (leads_csv w)
                (sent w ++ [ReplyText EMAIL_REPROMPT None]) (journal w)).
Proof.
  unfold collect_email. cbn [message_text payload].
  destruct (EMAIL_RE_match (strip t)); reflexivity.
Qed.

(** C2 (as amended): in the e-mail stage the typed text is trimmed first.
    When the trimmed text has the e-mail shape, it is stored as the e-mail,
    the note prompt is sent and the conversation advances to the note stage;
    when it has not, the re-prompt is sent, the conversation stays in the
    e-mail stage, and neither the user's data nor the lead log changes. *)
Theorem email_stage_on_trimmed_text cfg net usr now t w :
  let upd := mkUpdate usr (PlainText t) now in
  let app' := process_update cfg net upd (mkApp (Some COLLECT_EMAIL) w) in
  (spec_email_shape (strip t) ->
     conversation app' = Some COLLECT_NOTE /\
     ud_lead_email (user_data (world app')) = Some (strip t) /\
     leads_csv (world app') = leads_csv w /\
     sent (world app') = sent w ++ [ReplyText NOTE_PROMPT None]) /\
  (~ spec_email_shape (strip t) ->
     conversation app' = Some COLLECT_EMAIL /\
     user_data (world app') = user_data w /\
     leads_csv (world app') = leads_csv w /\
     sent (world app') = sent w ++ [ReplyText EMAIL_REPROMPT None]).
Proof.
  intros upd app'. subst app' upd. unfold process_update.
  cbn [conversation world]. rewrite route_text_in_stage, collect_email_run.
  pose proof (EMAIL_RE_match_strip t) as Hm.
  destruct (EMAIL_RE_match (strip t)); split; intros H; cbn.
  - auto.
  - exfalso. apply H. now apply Hm.
  - apply Hm in H. discriminate.
  - auto.
Qed.

(** C2 (as stated) fails: the typed text [" a@b.c"] starts with a space, so
    it has not the e-mail shape, yet the flow advances, because the handler
    trims the text before matching. *)
Lemma email_stage_on_typed_text_fails : ~ email_stage_on_typed_text.
Proof.
  intros H.
  destruct (H offline_cfg net_down ali now0 (u " a@b.c") world0) as [_ H2].
  destruct H2 as [Hc _].
  - intros Hs. eapply spec_email_shape_head in Hs; [|reflexivity].
    vm_compute in Hs. discriminate.
  - vm_compute in Hc. discriminate.
Qed.

Lemma email_stage_on_trimmed_text_witness :
  conversation
    (process_update offline_cfg net_down
       (mkUpdate ali (PlainText (u " ali@example.com ")) now0)
       (mkApp (Some COLLECT_EMAIL) world0)) = Some COLLECT_NOTE.
Proof.
  apply (proj1 (email_stage_on_trimmed_text offline_cfg net_down ali now0
                  (u " ali@example.com ") world0)).
  apply EMAIL_RE_match_strip. vm_compute. reflexivity.
Defined.

(* ===================================================================== *)
(** * Conversational memory *)
(* ===================================================================== *)

Lemma slice_from_last {A} (l : list A) :
  slice_from (- default_limit) l = skipn (List.length l - 6) l.
Proof.
  unfold slice_from, default_limit. cbn [Z.opp Z.ltb Z.compare].
  f_equal. lia.
Qed.

Lemma add_user_memory_run r c w :
  add_user_memory r c default_limit w =
  (Returned tt,
   set_user_data
     (mkUserData
        (Some (skipn (List.length (transcript w ++ [mkMessage r c]) - 6)
                     (transcript w ++ [mkMessage r c])))
        (ud_lead_name (user_data w)) (ud_lead_email (user_data w))
        (ud_lead_need (user_data w))) w).
Proof.
  unfold add_user_memory, bind, read_user_data, write_user_data.
  rewrite slice_from_last. reflexivity.
Qed.

Lemma skipn_window {A} (a r : list A) :
  let kept := skipn (List.length a - 6) a in
  skipn (List.length (kept ++ r) - 6) (kept ++ r)
  = skipn (List.length (a ++ r) - 6) (a ++ r).
Proof.
  intros kept.
  assert (E : kept ++ r = skipn (List.length a - 6) (a ++ r)).
  { subst kept. rewrite skipn_app.
    replace (List.length a - 6 - List.length a)%nat with 0%nat by lia.
    reflexivity. }
  rewrite E, skipn_skipn. f_equal.
  rewrite length_skipn, !length_app. lia.
Qed.

Lemma transcript_add r c w :
  transcript (snd (add_user_memory r c default_limit w))
  = skipn (List.length (transcript w ++ [mkMessage r c]) - 6)
          (transcript w ++ [mkMessage r c]).
Proof. rewrite add_user_memory_run. reflexivity. Qed.

(** After a non-empty sequence of calls the transcript is the last six of
    what was there followed by what was inserted. *)
Lemma remember_all_window es : forall w e,
  transcript (remember_all (e :: es) w)
  = skipn (List.length (transcript w ++ e :: es) - 6) (transcript w ++ e :: es).
Proof.
  induction es as [|e' es IH]; intros w [r c].
  - cbn [remember_all role content]. apply transcript_add.
  - change (remember_all (mkMessage r c :: e' :: es) w)
      with (remember_all (e' :: es) (snd (add_user_memory r c default_limit w))).
    rewrite IH, transcript_add.
    rewrite (skipn_window (transcript w ++ [mkMessage r c]) (e' :: es)).
    now rewrite <- app_assoc.
Qed.

(** C3: whatever the transcript held before, after any non-empty sequence
    of [add_user_memory] calls it holds at most six entries, and they are
    the most recent ones in insertion order (the oldest are dropped first);
    after ten insertions it is exactly the fifth to the tenth entry. *)
Theorem memory_sliding_window (w : World) :
  (forall e es,
     let all := transcript w ++ e :: es in
     let kept := transcript (remember_all (e :: es) w) in
     (List.length kept <= 6)%nat
     /\ kept = skipn (List.length all - 6) all
     /\ all = firstn (List.length all - 6) all ++ kept)
  /\ (forall e1 e2 e3 e4 e5 e6 e7 e8 e9 e10,
       transcript (remember_all [e1; e2; e3; e4; e5; e6; e7; e8; e9; e10] w)
       = [e5; e6; e7; e8; e9; e10]).
Proof.
  split.
  - intros e es all kept. subst kept. rewrite remember_all_window. fold all.
    repeat split.
    + rewrite length_skipn. lia.
    + now rewrite firstn_skipn.
  - intros. rewrite remember_all_window.
    rewrite skipn_app, skipn_all2 by (rewrite length_app; cbn; lia).
    rewrite length_app. cbn [List.length app].
    replace (List.length (transcript w) + 10 - 6 - List.length (transcript w))%nat
      with 4%nat by lia.
    reflexivity.
Qed.

(* ===================================================================== *)
(** * The response provider chain *)
(* ===================================================================== *)

Lemma contains_skip x sub s :
  contains sub s = true -> contains sub (x ++ s) = true.
Proof.
  intros H. induction x as [|c x IH]; [exact H|].
  simpl. rewrite IH. apply orb_true_r.
Qed.

Lemma contains_prefix sub rest : contains sub (sub ++ rest) = true.
Proof. apply contains_here, startswith_app. Qed.

Ltac find_part := repeat first [ apply contains_prefix | apply contains_skip ].

Lemma offline_template_contains user_text :
  contains user_text (offline_template user_text) = true.
Proof. unfold offline_template. find_part. Qed.

Lemma offline_template_nonempty user_text : offline_template user_text <> [].
Proof.
  unfold offline_template.
  match goal with |- ?a ++ _ <> [] => destruct a eqn:E end;
    [vm_compute in E|]; discriminate.
Qed.

Ltac same_world w :=
  destruct w; unfold log_more; cbn; rewrite ?app_nil_r, <- ?app_assoc; reflexivity.

(** The chain, case by case: which reply is returned and what is added to
    the journal. *)
Lemma ai_generate_reply_run cfg net user_text w :
  let msgs := chat_messages cfg user_text (user_data w) in
  let r1 := mkChatRequest (OPENAI_MODEL cfg) msgs in
  let r2 := mkChatRequest (OLLAMA_MODEL cfg) msgs in
  let j1 :=
    if openai_configured cfg then
      match openai_reply net r1 with
      | Returned _ => [OpenAICall r1]
      | Raised e => [OpenAICall r1; LogWarning (u "OpenAI error: " ++ exn_str e)]
      end
    else [] in
  ai_generate_reply cfg net user_text w =
  match (if openai_configured cfg then Some (openai_reply net r1) else None) with
  | Some (Returned out) => (Returned out, log_more w j1)
  | Some (Raised _) | None =>
    if USE_OLLAMA cfg then
      match ollama_reply net r2 with
      | Returned out => (Returned out, log_more w (j1 ++ [OllamaCall r2]))
      | Raised e =>
        (Returned (offline_template user_text),
         log_more w (j1 ++ [OllamaCall r2;
                            LogWarning (u "Ollama error: " ++ exn_str e)]))
      end
    else (Returned (offline_template user_text), log_more w j1)
  end.
Proof.
  intros msgs r1 r2 j1. subst j1.
  unfold ai_generate_reply, guarded, try_except, bind, read_user_data,
    openai_attempt, ollama_attempt, record, lift, ret.
  fold msgs. fold r1. fold r2.
  destruct (openai_configured cfg);
    [destruct (openai_reply net r1)|];
    try (destruct (USE_OLLAMA cfg); [destruct (ollama_reply net r2)|]);
    same_world w.
Qed.

(** What a returning attempt of the hosted provider yields: the content of
    the first choice, trimmed. *)
Lemma openai_reply_returned net req out :
  openai_reply net req = Returned out <->
  exists c rest, openai_create net req = Returned (Some c :: rest) /\ out = strip c.
Proof.
  unfold openai_reply, obind. split.
  - destruct (openai_create net req) as [[|[c|] rest]|e]; try discriminate.
    intros H; injection H as <-. eauto.
  - intros (c & rest & -> & ->). reflexivity.
Qed.

(** C4: with the hosted provider configured, a returning attempt of it is
    the reply, and the journal shows the hosted call alone (no call of the
    local endpoint, no warning); if its attempt raises and the local
    provider is disabled, the reply is the offline template, in which the
    user's text occurs verbatim. *)
Theorem provider_chain_first_success cfg net user_text w :
  openai_configured cfg = true ->
  let msgs := chat_messages cfg user_text (user_data w) in
  let req := mkChatRequest (OPENAI_MODEL cfg) msgs in
  (forall out, openai_reply net req = Returned out ->
     ai_generate_reply cfg net user_text w
     = (Returned out, log_more w [OpenAICall req]))
  /\ (forall e, openai_reply net req = Raised e -> USE_OLLAMA cfg = false ->
        ai_generate_reply cfg net user_text w
        = (Returned (offline_template user_text),
           log_more w [OpenAICall req;
                       LogWarning (u "OpenAI error: " ++ exn_str e)])
        /\ contains user_text (offline_template user_text) = true).
Proof.
  intros Hk msgs req. split.
  - intros out Ho. rewrite ai_generate_reply_run. fold msgs. fold req.
    now rewrite Hk, Ho.
  - intros e He Hu. split; [|apply offline_template_contains].
    rewrite ai_generate_reply_run. fold msgs. fold req.
    now rewrite Hk, He, Hu.
Qed.

Lemma provider_chain_first_success_witness :
  ai_generate_reply hosted_cfg net_hosted (u "hi") world0
  = (Returned (u "hello"),
     log_more world0
       [OpenAICall (mkChatRequest (OPENAI_MODEL hosted_cfg)
                      (chat_messages hosted_cfg (u "hi") (user_data world0)))]).
Proof.
  apply (proj1 (provider_chain_first_success hosted_cfg net_hosted (u "hi")
                  world0 eq_refl) (u "hello")).
  vm_compute. reflexivity.
Defined.

(** C9: without a hosted credential and with the local provider disabled,
    the reply is the offline template of the user's text, whatever the
    backends would answer and whatever the world holds: two calls on the
    same text return the same reply, and neither changes the world. *)
Theorem offline_reply_deterministic cfg net1 net2 user_text w1 w2 :
  openai_configured cfg = false ->
  USE_OLLAMA cfg = false ->
  ai_generate_reply cfg net1 user_text w1 = (Returned (offline_template user_text), w1)
  /\ ai_generate_reply cfg net2 user_text w2 = (Returned (offline_template user_text), w2)
  /\ fst (ai_generate_reply cfg net1 user_text w1)
     = fst (ai_generate_reply cfg net2 user_text w2)
  /\ contains user_text (offline_template user_text) = true.
Proof.
  intros Hk Hu.
  assert (H : forall net w, ai_generate_reply cfg net user_text w
                            = (Returned (offline_template user_text), w)).
  { intros net w. rewrite ai_generate_reply_run, Hk, Hu. f_equal. same_world w. }
  rewrite !H. repeat split. apply offline_template_contains.
Qed.

Lemma offline_reply_deterministic_witness :
  fst (ai_generate_reply offline_cfg net_down (u "hi") world0)
  = fst (ai_generate_reply offline_cfg net_hosted (u "hi") world0).
Proof.
  apply (offline_reply_deterministic offline_cfg net_down net_hosted (u "hi")
           world0 world0 eq_refl eq_refl).
Defined.

(** Malformed answers raise inside the [try] bodies: no choice, a choice
    without content, a ["message"] that is a number or a string. *)
Example openai_no_choice net req :
  openai_create net req = Returned [] -> openai_reply net req = Raised IndexError.
Proof. unfold openai_reply. now intros ->. Qed.

Example openai_no_content net req rest :
  openai_create net req = Returned (None :: rest) ->
  openai_reply net req = Raised (no_strip (u "NoneType")).
Proof. unfold openai_reply. now intros ->. Qed.

Example ollama_message_number net req :
  ollama_post_json net req = Returned (JObj [(u "message", JInt 1)]) ->
  ollama_reply net req = Raised (not_iterable (u "int")).
Proof. unfold ollama_reply. now intros ->. Qed.

Example ollama_message_string net req :
  ollama_post_json net req = Returned (JObj [(u "message", JStr (u "no content"))]) ->
  ollama_reply net req = Raised str_indices.
Proof. unfold ollama_reply. now intros ->. Qed.

(** An answer of another shape does not raise: its dump is the reply. *)
Example ollama_other_shape net req :
  ollama_post_json net req = Returned (JObj [(u "error", JStr (u "no model"))]) ->
  ollama_reply net req
  = Returned (prefix_slice 800
                (json_dumps net (JObj [(u "error", JStr (u "no model"))]))).
Proof. unfold ollama_reply. now intros ->. Qed.

(** C7 (as stated) fails: the hosted provider times out, the local one
    answers [{"message": {"content": ""}}], and the reply is the empty
    text. *)
Lemma reply_always_nonempty_fails : ~ reply_always_nonempty.
Proof.
  intros H.
  destruct (H both_cfg net_local_blank (u "hi") world0) as (reply & w' & E & Hne).
  vm_compute in E. injection E as <- _. now apply Hne.
Qed.

(** C7 (as amended): whatever the backends do, the generator returns a text
    and never raises, and it changes nothing but the journal.  A returning
    attempt of the hosted provider is the reply, as it is.  An attempt that
    raises is logged as a warning and skipped: after a skipped or
    unconfigured hosted provider a returning local attempt is the reply, as
    it is, and when the local provider is skipped or disabled too the reply
    is the offline template, which is not empty.  In each case the journal
    gains exactly the calls made and the warnings logged. *)
Theorem generate_never_raises cfg net user_text w :
  let msgs := chat_messages cfg user_text (user_data w) in
  let r1 := mkChatRequest (OPENAI_MODEL cfg) msgs in
  let r2 := mkChatRequest (OLLAMA_MODEL cfg) msgs in
  let hosted_skipped (j1 : list Effect) : Prop :=
    (openai_configured cfg = false /\ j1 = [])
    \/ (openai_configured cfg = true
        /\ exists e, openai_reply net r1 = Raised e
                     /\ j1 = [OpenAICall r1;
                              LogWarning (u "OpenAI error: " ++ exn_str e)]) in
  (exists reply j,
     ai_generate_reply cfg net user_text w = (Returned reply, log_more w j))
  /\ (forall out,
        openai_configured cfg = true -> openai_reply net r1 = Returned out ->
        ai_generate_reply cfg net user_text w
        = (Returned out, log_more w [OpenAICall r1]))
  /\ (forall j1, hosted_skipped j1 ->
        (forall out,
           USE_OLLAMA cfg = true -> ollama_reply net r2 = Returned out ->
           ai_generate_reply cfg net user_text w
           = (Returned out, log_more w (j1 ++ [OllamaCall r2])))
        /\ (forall e,
              USE_OLLAMA cfg = true -> ollama_reply net r2 = Raised e ->
              ai_generate_reply cfg net user_text w
              = (Returned (offline_template user_text),
                 log_more w (j1 ++ [OllamaCall r2;
                                    LogWarning (u "Ollama error: " ++ exn_str e)])))
        /\ (USE_OLLAMA cfg = false ->
            ai_generate_reply cfg net user_text w
            = (Returned (offline_template user_text), log_more w j1)))
  /\ offline_template user_text <> [].
Proof.
  intros msgs r1 r2 hosted_skipped. subst hosted_skipped.
  split.
  { rewrite ai_generate_reply_run. cbv zeta.
    destruct (openai_configured cfg);
      [destruct (openai_reply net _)|];
      try (destruct (USE_OLLAMA cfg); [destruct (ollama_reply net _)|]);
      eauto. }
  split; [|split; [|apply offline_template_nonempty]].
  - intros out Hk Ho. rewrite ai_generate_reply_run. fold msgs r1 r2.
    now rewrite Hk, Ho.
  - intros j1 Hj.
    assert (E : ai_generate_reply cfg net user_text w
                = if USE_OLLAMA cfg then
                    match ollama_reply net r2 with
                    | Returned out =>
                      (Returned out, log_more w (j1 ++ [OllamaCall r2]))
                    | Raised e =>
                      (Returned (offline_template user_text),
                       log_more w (j1 ++ [OllamaCall r2;
                                          LogWarning (u "Ollama error: "
                                                      ++ exn_str e)]))
                    end
                  else (Returned (offline_template user_text), log_more w j1)).
    { rewrite ai_generate_reply_run. fold msgs r1 r2.
      destruct Hj as [[Hk ->]|(Hk & e & He & ->)]; now rewrite Hk, ?He. }
    rewrite E. split; [|split].
    + intros out -> ->. reflexivity.
    + intros e -> ->. reflexivity.
    + intros ->. reflexivity.
Qed.

Lemma generate_never_raises_witness :
  ai_generate_reply hosted_cfg net_down (u "hi") world0
  = (Returned (offline_template (u "hi")),
     log_more world0
       [OpenAICall (mkChatRequest (OPENAI_MODEL hosted_cfg)
                      (chat_messages hosted_cfg (u "hi") (user_data world0)));
        LogWarning (u "OpenAI error: " ++ exn_str timed_out)]).
Proof.
  destruct (generate_never_raises hosted_cfg net_down (u "hi") world0)
    as (_ & _ & H & _).
  destruct (H [OpenAICall (mkChatRequest (OPENAI_MODEL hosted_cfg)
                             (chat_messages hosted_cfg (u "hi")
                                            (user_data world0)));
               LogWarning (u "OpenAI error: " ++ exn_str timed_out)])
    as (_ & _ & Hoff).
  - right. split; [reflexivity|]. exists timed_out. split; reflexivity.
  - exact (Hoff eq_refl).
Defined.

(* ===================================================================== *)
(** * Lead store *)
(* ===================================================================== *)

Lemma ensure_leads_csv_run w :
  ensure_leads_csv w = (Returned tt, set_leads_csv (Some (initialized (leads_csv w))) w).
Proof.
  unfold ensure_leads_csv, bind, leads_exists, open_w, writerow, ret.
  destruct w as [ud [rows|] s j]; reflexivity.
Qed.

Lemma save_lead_run name_ email need upd note w :
  save_lead name_ email need upd note w
  = (Returned tt,
     set_leads_csv
       (Some (initialized (leads_csv w) ++ [lead_row upd name_ email need note])) w).
Proof.
  unfold save_lead, bind. rewrite ensure_leads_csv_run.
  destruct w as [ud f s j]. reflexivity.
Qed.

(** C5 (as stated) fails: the fifth column of the header the code writes is
    named ["from"], not ["contact_handle"]. *)
Lemma header_as_specified_fails : ~ header_as_specified.
Proof.
  intros H. specialize (H world0 eq_refl). vm_compute in H. discriminate.
Qed.

(** C5 (as amended): [ensure_leads_csv] creates the log with the single
    header row timestamp, name, email, need, from, username, note exactly
    when the log does not exist, leaves an existing log as it is, touches
    nothing else, and is idempotent: a second call changes nothing, so the
    header is never duplicated and no row is lost. *)
Theorem ensure_leads_csv_idempotent (w : World) :
  HEADER = [u "timestamp"; u "name"; u "email"; u "need"; u "from";
            u "username"; u "note"]
  /\ (leads_csv w = None ->
      ensure_leads_csv w = (Returned tt, set_leads_csv (Some [HEADER]) w))
  /\ (forall rows, leads_csv w = Some rows -> ensure_leads_csv w = (Returned tt, w))
  /\ (leads_csv (snd (ensure_leads_csv w)) <> leads_csv w <-> leads_csv w = None)
  /\ ensure_leads_csv (snd (ensure_leads_csv w))
     = (Returned tt, snd (ensure_leads_csv w)).
Proof.
  rewrite !ensure_leads_csv_run. cbn [snd].
  destruct w as [ud [rows|] s j];
    cbn [leads_csv set_leads_csv initialized user_data sent journal].
  - split; [reflexivity|]. split; [discriminate|].
    split; [intros rows' E; injection E as <-; reflexivity|].
    split; [|reflexivity].
    split; [intros H; now contradiction H | discriminate].
  - split; [reflexivity|]. split; [reflexivity|].
    split; [discriminate|]. split; [|reflexivity].
    split; [reflexivity | discriminate].
Qed.

Lemma ensure_leads_csv_idempotent_witness :
  ensure_leads_csv world0 = (Returned tt, set_leads_csv (Some [HEADER]) world0).
Proof.
  apply (proj1 (proj2 (ensure_leads_csv_idempotent world0))). reflexivity.
Defined.

(* ===================================================================== *)
(** * The service catalogue *)
(* ===================================================================== *)

Lemma split1_svc key : split1 58 (u "svc:" ++ key) = [u "svc"; key].
Proof. reflexivity. Qed.

Lemma route_svc cfg net st usr now key :
  route cfg net st (mkUpdate usr (CallbackQuery (u "svc:" ++ key)) now)
  = Plain (on_service_click (mkUpdate usr (CallbackQuery (u "svc:" ++ key)) now)).
Proof.
  unfold route, is_command. cbn [payload].
  now rewrite startswith_app.
Qed.

Lemma on_service_click_run usr now key w :
  on_service_click (mkUpdate usr (CallbackQuery (u "svc:" ++ key)) now) w
  = (Returned NoResult,
     send_more w
       [AnswerQuery;
        match dict_get key SERVICES with
        | Some s => EditMessageText (service_message s) (Some (u "Markdown"))
        | None => EditMessageText SERVICE_ERROR None
        end]).
Proof.
  unfold on_service_click, bind, send, ret. cbn [query_data payload].
  rewrite split1_svc. cbn [nth_error].
  destruct (dict_get key SERVICES); unfold send_more; cbn;
    now rewrite <- app_assoc.
Qed.

(** Without the router's pattern the handler would raise: a payload with no
    colon has no second piece. *)
Example on_service_click_no_colon :
  fst (on_service_click (mkUpdate ali (CallbackQuery (u "svc")) now0) world0)
  = Raised IndexError.
Proof. reflexivity. Qed.

(** C6: a callback whose payload is ["svc:"] followed by a key is routed to
    [on_service_click], which returns without raising.  For a key of the
    catalogue the message shown is built from that entry and contains its
    name, its description and its starting price; for any other key it is
    the generic error message. *)
Theorem catalog_lookup cfg net st usr now key w :
  let upd := mkUpdate usr (CallbackQuery (u "svc:" ++ key)) now in
  route cfg net st upd = Plain (on_service_click upd)
  /\ (forall s, dict_get key SERVICES = Some s ->
        on_service_click upd w
        = (Returned NoResult,
           send_more w [AnswerQuery;
                        EditMessageText (service_message s) (Some (u "Markdown"))])
        /\ contains (name s) (service_message s) = true
        /\ contains (desc s) (service_message s) = true
        /\ contains (starts_from s) (service_message s) = true)
  /\ (dict_get key SERVICES = None ->
        on_service_click upd w
        = (Returned NoResult,
           send_more w [AnswerQuery; EditMessageText SERVICE_ERROR None]))
  /\ (exists w', on_service_click upd w = (Returned NoResult, w'))
  /\ conversation (process_update cfg net upd (mkApp st w)) = st.
Proof.
  intros upd. subst upd. split; [apply route_svc|].
  split; [|split; [|split]].
  - intros s Hs. rewrite on_service_click_run, Hs.
    split; [reflexivity|]. unfold service_message. repeat split; find_part.
  - intros Hs. now rewrite on_service_click_run, Hs.
  - rewrite on_service_click_run. eauto.
  - unfold process_update. cbn [conversation]. now rewrite route_svc.
Qed.

Lemma catalog_lookup_witness :
  exists s,
    dict_get (u "web") SERVICES = Some s
    /\ contains (starts_from s) (service_message s) = true.
Proof.
  exists (mkService (u "تطوير مواقع")
            (u "مواقع سريعة آمنة (Next.js/Django) مع لوحة تحكم وتهيئة SEO.")
            (u "1000$")).
  split; [reflexivity|].
  apply (proj1 (proj2 (catalog_lookup offline_cfg net_down None ali now0
                         (u "web") world0))).
  reflexivity.
Defined.

(* ===================================================================== *)
(** * The handlers, run *)
(* ===================================================================== *)

Lemma contact_start_run upd w :
  contact_start upd w
  = (Returned (Goto COLLECT_NAME),
     mkWorld (mkUserData (ud_mem (user_data w)) (ud_lead_name (user_data w))
                         (ud_lead_email (user_data w)) (Some DEFAULT_NEED))
             (leads_csv w)
             (sent w ++ [ReplyText (u "سنأخذ بعض البيانات البسيطة. ما اسمك الكامل؟") None])
             (journal w)).
Proof. reflexivity. Qed.

Lemma collect_name_run upd w :
  collect_name upd w
  = (Returned (Goto COLLECT_EMAIL),
     mkWorld (mkUserData (ud_mem (user_data w)) (Some (strip (message_text upd)))
                         (ud_lead_email (user_data w)) (ud_lead_need (user_data w)))
             (leads_csv w)
             (sent w ++ [ReplyText (u "بريدك الإلكتروني؟") None])
             (journal w)).
Proof. reflexivity. Qed.

Lemma collect_note_run upd w :
  collect_note upd w
  = (Returned END,
     mkWorld (user_data w)
             (Some (initialized (leads_csv w)
                    ++ [lead_row upd (get (ud_lead_name (user_data w)) [])
                          (get (ud_lead_email (user_data w)) [])
                          (get (ud_lead_need (user_data w)) DEFAULT_NEED)
                          (strip (message_text upd))]))
             (sent w ++ [ReplyText THANKS None])
             (journal w)).
Proof.
  unfold collect_note, bind, read_user_data. rewrite save_lead_run. reflexivity.
Qed.

Lemma cancel_run upd w :
  cancel upd w = (Returned END, send_more w [ReplyText CANCELLED None]).
Proof. reflexivity. Qed.

Lemma services_same_leads upd w : same_leads w (snd (services upd w)).
Proof. repeat split. Qed.

Lemma start_same_leads cfg upd w : same_leads w (snd (start cfg upd w)).
Proof.
  unfold start, bind. rewrite add_user_memory_run. repeat split.
Qed.

Lemma on_service_click_same_leads upd w :
  same_leads w (snd (on_service_click upd w)).
Proof.
  unfold on_service_click, bind, send, ret, raise.
  destruct (nth_error (split1 58 (query_data upd)) 1) as [key|];
    [destruct (dict_get key SERVICES)|]; repeat split.
Qed.

Lemma ai_generate_reply_returns cfg net user_text w :
  exists reply j,
    ai_generate_reply cfg net user_text w = (Returned reply, log_more w j).
Proof.
  rewrite ai_generate_reply_run. cbv zeta.
  destruct (openai_configured cfg);
    [destruct (openai_reply net _)|];
    try (destruct (USE_OLLAMA cfg); [destruct (ollama_reply net _)|]);
    eauto.
Qed.

Lemma ai_reply_same_leads cfg net upd w :
  same_leads w (snd (ai_reply cfg net upd w)).
Proof.
  unfold ai_reply, bind. rewrite add_user_memory_run.
  match goal with
  | |- context [ai_generate_reply cfg net ?t ?w1] =>
    destruct (ai_generate_reply_returns cfg net t w1) as (reply & j & ->)
  end.
  rewrite add_user_memory_run. repeat split.
Qed.

Lemma is_command_inv c upd :
  is_command c upd = true -> exists full, payload upd = Command c full.
Proof.
  unfold is_command. destruct (payload upd) as [c' full| |]; try discriminate.
  intros H. apply text_eqb_eq in H as ->. eauto.
Qed.

(** Every update is handled by one of the six kinds of step. *)
Lemma process_update_step cfg net upd app :
  Step upd app (process_update cfg net upd app).
Proof.
  destruct app as [st w]. destruct upd as [usr pl now].
  unfold process_update, route, is_command.
  cbn [payload conversation world].
  destruct pl as [c full|t|d].
  - destruct (text_eqb c (u "start")) eqn:Es.
    { apply StepOutside; [reflexivity | apply start_same_leads]. }
    destruct (text_eqb c (u "services")) eqn:Ev.
    { apply StepOutside; [reflexivity | apply services_same_leads]. }
    destruct st as [s|]; cbn [conv_handler payload].
    + replace (match s with
               | COLLECT_NAME | _ =>
                 if text_eqb c (u "cancel")
                 then Some (cancel (mkUpdate usr (Command c full) now))
                 else None
               end)
        with (if text_eqb c (u "cancel")
              then Some (cancel (mkUpdate usr (Command c full) now))
              else None) by (destruct s; reflexivity).
      destruct (text_eqb c (u "cancel")) eqn:Ec.
      * rewrite cancel_run. apply StepCancel; cbn; try reflexivity.
        -- exact Ec.
        -- discriminate.
      * apply StepOutside; [reflexivity | repeat split].
    + destruct (text_eqb c (u "contact")) eqn:Ec.
      * rewrite contact_start_run. apply StepContact; reflexivity.
      * apply StepOutside; [reflexivity | repeat split].
  - destruct st as [[| |]|]; cbn [conv_handler payload].
    + rewrite collect_name_run. eapply StepName; reflexivity.
    + rewrite collect_email_run.
      destruct (EMAIL_RE_match (strip t)) eqn:Em.
      * eapply StepEmail; try reflexivity. now apply EMAIL_RE_match_strip.
      * apply StepOutside; [reflexivity | repeat split].
    + rewrite collect_note_run. eapply StepNote; reflexivity.
    + apply StepOutside; [reflexivity | apply ai_reply_same_leads].
  - destruct (startswith (u "svc:") d).
    { apply StepOutside; [reflexivity | apply on_service_click_same_leads]. }
    replace (conv_handler st (mkUpdate usr (CallbackQuery d) now))
      with (@None (M HandlerResult)) by (destruct st as [[| |]|]; reflexivity).
    apply StepOutside; [reflexivity | repeat split].
Qed.

(* ===================================================================== *)
(** * The lead-collection flow *)
(* ===================================================================== *)

Lemma Step_flow_edge upd app app' :
  Step upd app app' -> flow_edge (conversation app) (conversation app').
Proof.
  unfold flow_edge.
  intros [Hc _|Hc Hc' _ _|t _ Hc Hc' _ _ _|t _ Hc Hc' _ _ _ _ _
         |t _ Hc Hc' _ _ _|_ Hc Hc' _ _ _].
  - now left.
  - right. left. now split.
  - right. right. left. now split.
  - right. right. right. left. now split.
  - right. right. right. right. split; [rewrite Hc; discriminate | exact Hc'].
  - right. right. right. right. now split.
Qed.

Lemma Step_collected upd app app' :
  Step upd app app' -> collected app -> collected app'.
Proof.
  unfold collected.
  intros [Hc (_ & Hn & He & Hd)|Hc Hc' _ Hd|t _ Hc Hc' _ Hn Hd
         |t _ Hc Hc' Hs _ He Hn Hd|t _ Hc Hc' _ _ _|_ Hc Hc' _ _ _].
  - rewrite Hc, Hn, He, Hd. auto.
  - rewrite Hc'. intros _. exact Hd.
  - rewrite Hc, Hc', Hd, Hn. intros H. split; [exact H | now exists t].
  - rewrite Hc, Hc', Hd, Hn, He. intros [H1 H2].
    split; [exact H1|]. split; [exact H2|]. now exists (strip t).
  - rewrite Hc'. intros _. exact I.
  - rewrite Hc'. intros _. exact I.
Qed.

Lemma run_snoc cfg net upds upd app :
  run cfg net (upds ++ [upd]) app
  = process_update cfg net upd (run cfg net upds app).
Proof. unfold run. now rewrite fold_left_app. Qed.

(** From Idle every state reached has collected what its stage requires. *)
Lemma run_collected cfg net upds : forall app,
  collected app -> collected (run cfg net upds app).
Proof.
  induction upds as [|upd upds IH]; intros app H; [exact H|].
  cbn [run fold_left]. apply IH.
  eapply Step_collected; [apply process_update_step | exact H].
Qed.

Lemma process_cancel cfg net usr now full s w :
  process_update cfg net (mkUpdate usr (Command (u "cancel") full) now)
                 (mkApp (Some s) w)
  = mkApp None (send_more w [ReplyText CANCELLED None]).
Proof. destruct s; reflexivity. Qed.

Lemma process_note cfg net usr now note w :
  process_update cfg net (mkUpdate usr (PlainText note) now)
                 (mkApp (Some COLLECT_NOTE) w)
  = mkApp None (snd (collect_note (mkUpdate usr (PlainText note) now) w)).
Proof.
  unfold process_update. cbn [conversation world].
  rewrite route_text_in_stage, collect_note_run. reflexivity.
Qed.

Lemma process_contact cfg net usr now full w :
  process_update cfg net (mkUpdate usr (Command (u "contact") full) now)
                 (mkApp None w)
  = mkApp (Some COLLECT_NAME)
          (snd (contact_start (mkUpdate usr (Command (u "contact") full) now) w)).
Proof. reflexivity. Qed.

Lemma process_name cfg net usr now t w :
  process_update cfg net (mkUpdate usr (PlainText t) now)
                 (mkApp (Some COLLECT_NAME) w)
  = mkApp (Some COLLECT_EMAIL)
          (snd (collect_name (mkUpdate usr (PlainText t) now) w)).
Proof.
  unfold process_update. cbn [conversation world].
  now rewrite route_text_in_stage, collect_name_run.
Qed.

Lemma process_email_ok cfg net usr now t w :
  spec_email_shape (strip t) ->
  process_update cfg net (mkUpdate usr (PlainText t) now)
                 (mkApp (Some COLLECT_EMAIL) w)
  = mkApp (Some COLLECT_NOTE)
          (snd (collect_email (mkUpdate usr (PlainText t) now) w)).
Proof.
  intros H. unfold process_update. cbn [conversation world].
  rewrite route_text_in_stage, collect_email_run.
  now rewrite (proj2 (EMAIL_RE_match_strip t) H).
Qed.

Lemma process_email_any cfg net usr now t w :
  process_update cfg net (mkUpdate usr (PlainText t) now)
                 (mkApp (Some COLLECT_EMAIL) w)
  = mkApp (if EMAIL_RE_match (strip t) then Some COLLECT_NOTE
           else Some COLLECT_EMAIL)
          (snd (collect_email (mkUpdate usr (PlainText t) now) w)).
Proof.
  unfold process_update. cbn [conversation world].
  rewrite route_text_in_stage, collect_email_run.
  destruct (EMAIL_RE_match (strip t)); reflexivity.
Qed.

(** A whole flow from Idle, on any texts with a valid e-mail. *)
Lemma whole_flow_log cfg net usr full now1 now2 now3 now4
      typed_name typed_email typed_note w :
  spec_email_shape (strip typed_email) ->
  let note_upd := mkUpdate usr (PlainText typed_note) now4 in
  let done := run cfg net
                [ mkUpdate usr (Command (u "contact") full) now1;
                  mkUpdate usr (PlainText typed_name) now2;
                  mkUpdate usr (PlainText typed_email) now3;
                  note_upd ] (mkApp None w) in
  conversation done = None
  /\ leads_csv (world done)
     = Some (initialized (leads_csv w)
             ++ [lead_row note_upd (strip typed_name) (strip typed_email)
                          DEFAULT_NEED (strip typed_note)]).
Proof.
  intros Hs note_upd done. subst done note_upd. cbn [run fold_left].
  rewrite process_contact, process_name, (process_email_ok _ _ _ _ _ _ Hs),
    process_note.
  rewrite collect_note_run, collect_email_run, collect_name_run,
    contact_start_run, (proj2 (EMAIL_RE_match_strip typed_email) Hs).
  split; reflexivity.
Qed.

(** A flow cancelled after [k] of its first two answers (none, the name,
    or the name and an e-mail, valid or not). *)
Lemma cancelled_flow_log cfg net usr full fullc now1 now2 now3 now4
      typed_name typed_email k w :
  let done := run cfg net
                (mkUpdate usr (Command (u "contact") full) now1
                 :: firstn k [ mkUpdate usr (PlainText typed_name) now2;
                               mkUpdate usr (PlainText typed_email) now3 ]
                 ++ [mkUpdate usr (Command (u "cancel") fullc) now4])
                (mkApp None w) in
  conversation done = None /\ leads_csv (world done) = leads_csv w.
Proof.
  intros done. subst done.
  destruct k as [|[|k]]; cbn [firstn]; rewrite ?firstn_nil;
    cbn [app run fold_left];
    rewrite process_contact, contact_start_run; cbn [snd].
  - rewrite process_cancel. split; reflexivity.
  - rewrite process_name, collect_name_run, process_cancel. split; reflexivity.
  - rewrite process_name, collect_name_run. cbn [snd].
    rewrite process_email_any, collect_email_run.
    destruct (EMAIL_RE_match (strip typed_email));
      rewrite process_cancel; split; reflexivity.
Qed.

(** C1: along every run that starts Idle, each update moves the
    conversation along an edge of the flow (the stages are passed in order:
    name, e-mail, note).  The text of the note stage always writes: the
    name and a validated e-mail have been collected, the need is its
    default, the conversation ends, and exactly one row is appended (after
    the header if the log was new), made of the collected fields, the
    trimmed note and the user's identity.  No other update changes the
    log; in particular a cancel command writes nothing and ends the
    conversation.  From an Idle state a whole flow ([/contact], a name, a
    valid e-mail, a note) appends exactly the row of its trimmed texts, and
    a flow cancelled before the note is given leaves the log as it was. *)
Theorem lead_written_only_after_three_stages cfg net w0 upds upd :
  let app := run cfg net upds (mkApp None w0) in
  let app' := process_update cfg net upd app in
  flow_edge (conversation app) (conversation app')
  /\ (forall note,
        payload upd = PlainText note ->
        conversation app = Some COLLECT_NOTE ->
        exists typed_name email,
          ud_lead_name (user_data (world app)) = Some (strip typed_name)
          /\ ud_lead_email (user_data (world app)) = Some email
          /\ spec_email_shape email
          /\ ud_lead_need (user_data (world app)) = Some DEFAULT_NEED
          /\ conversation app' = None
          /\ leads_csv (world app')
             = Some (initialized (leads_csv (world app))
                     ++ [lead_row upd (strip typed_name) email DEFAULT_NEED
                                  (strip note)]))
  /\ ((conversation app <> Some COLLECT_NOTE
       \/ forall note, payload upd <> PlainText note) ->
      leads_csv (world app') = leads_csv (world app))
  /\ (is_command (u "cancel") upd = true ->
      leads_csv (world app') = leads_csv (world app)
      /\ (conversation app <> None -> conversation app' = None))
  /\ (conversation app = None ->
      forall usr full fullc now1 now2 now3 now4 typed_name typed_email typed_note,
        (spec_email_shape (strip typed_email) ->
         let note_upd := mkUpdate usr (PlainText typed_note) now4 in
         let done := run cfg net
                       [ mkUpdate usr (Command (u "contact") full) now1;
                         mkUpdate usr (PlainText typed_name) now2;
                         mkUpdate usr (PlainText typed_email) now3;
                         note_upd ] app in
         conversation done = None
         /\ leads_csv (world done)
            = Some (initialized (leads_csv (world app))
                    ++ [lead_row note_upd (strip typed_name) (strip typed_email)
                                 DEFAULT_NEED (strip typed_note)]))
        /\ (forall k,
              let done := run cfg net
                            (mkUpdate usr (Command (u "contact") full) now1
                             :: firstn k [ mkUpdate usr (PlainText typed_name) now2;
                                           mkUpdate usr (PlainText typed_email) now3 ]
                             ++ [mkUpdate usr (Command (u "cancel") fullc) now4])
                            app in
              conversation done = None
              /\ leads_csv (world done) = leads_csv (world app))).
Proof.
  intros app app'.
  assert (Hcol : collected app) by (apply run_collected; exact I).
  pose proof (process_update_step cfg net upd app) as Hstep. fold app' in Hstep.
  split; [now apply Step_flow_edge with upd|].
  subst app'. clearbody app. destruct app as [st w]. destruct upd as [usr pl now].
  cbn [conversation world payload] in *.
  split; [|split; [|split]].
  - intros note -> ->. unfold collected in Hcol. cbn [conversation world] in Hcol.
    destruct Hcol as (Hd & (n & Hn) & (e & He & Hs)).
    exists n, e. rewrite process_note, collect_note_run.
    cbn [conversation world leads_csv message_text payload].
    rewrite Hn, He, Hd. cbn [get]. repeat split; assumption.
  - intros Hnot.
    destruct Hstep as [_ (Hl & _)|_ _ Hl _|t _ _ _ Hl _ _
                      |t _ _ _ _ Hl _ _ _|t Hp Hc _ _ _ _|_ _ _ _ Hl _];
      try exact Hl.
    cbn [conversation world payload] in Hp, Hc.
    destruct Hnot as [Hnot|Hnot]; [now contradiction Hnot | now destruct (Hnot t)].
  - intros Hcmd. apply is_command_inv in Hcmd as [full Hfull].
    cbn [payload] in Hfull. subst pl. split.
    + destruct Hstep as [_ (Hl & _)|_ _ Hl _|t _ _ _ Hl _ _
                        |t _ _ _ _ Hl _ _ _|t Hp _ _ _ _ _|_ _ _ _ Hl _];
        try exact Hl.
      cbn [payload] in Hp. discriminate.
    + intros Hst. destruct st as [s|]; [|now contradiction Hst].
      now rewrite process_cancel.
  - intros ->. intros usr' full fullc now1 now2 now3 now4 tn te tt'. split.
    + intros Hs. apply whole_flow_log. exact Hs.
    + intros k. apply cancelled_flow_log.
Qed.

Lemma lead_written_only_after_three_stages_witness :
  let upds := [ mkUpdate ali contact_cmd now0;
                mkUpdate ali (PlainText (u "Ali")) now0;
                mkUpdate ali (PlainText (u " ali@example.com ")) now0 ] in
  let upd := mkUpdate ali (PlainText (u "need a website")) now0 in
  let app := run offline_cfg net_down upds (mkApp None world0) in
  exists typed_name email,
    ud_lead_name (user_data (world app)) = Some (strip typed_name)
    /\ ud_lead_email (user_data (world app)) = Some email
    /\ spec_email_shape email
    /\ ud_lead_need (user_data (world app)) = Some DEFAULT_NEED
    /\ conversation (process_update offline_cfg net_down upd app) = None
    /\ leads_csv (world (process_update offline_cfg net_down upd app))
       = Some (initialized (leads_csv (world app))
               ++ [lead_row upd (strip typed_name) email DEFAULT_NEED
                            (strip (u "need a website"))]).
Proof.
  intros upds upd app.
  apply (proj1 (proj2 (lead_written_only_after_three_stages offline_cfg
                         net_down world0 upds upd)) (u "need a website"));
    reflexivity.
Defined.

(** The flow of the specification's example, from an empty world: one
    header row and one record. *)
Example ali_flow :
  let upds := [ mkUpdate ali contact_cmd now0;
                mkUpdate ali (PlainText (u "Ali")) now0;
                mkUpdate ali (PlainText (u "ali@example.com")) now0;
                mkUpdate ali (PlainText (u "need a website")) now0 ] in
  let app := run offline_cfg net_down upds (mkApp None world0) in
  conversation app = None
  /\ leads_csv (world app)
     = Some [ HEADER;
              [now0; u "Ali"; u "ali@example.com"; u "عام";
               u "tg://user?id=42"; u "ali_dev"; u "need a website"] ].
Proof. vm_compute. split; reflexivity. Qed.

(** Cancelling in the e-mail stage: nothing reaches the log. *)
Example ali_cancels :
  let upds := [ mkUpdate ali contact_cmd now0;
                mkUpdate ali (PlainText (u "Ali")) now0;
                mkUpdate ali cancel_cmd now0 ] in
  let app := run offline_cfg net_down upds (mkApp None world0) in
  conversation app = None /\ leads_csv (world app) = None.
Proof. vm_compute. split; reflexivity. Qed.

(** C8 (as stated) fails: after the name was given, cancelling leaves
    ["lead_name"] (and ["lead_need"]) in the user's dict. *)
Lemma cancel_discards_session_fails : ~ cancel_discards_session.
Proof.
  intros H.
  pose (w1 := world (run offline_cfg net_down
                       [ mkUpdate ali contact_cmd now0;
                         mkUpdate ali (PlainText (u "Ali")) now0 ]
                       (mkApp None world0))).
  destruct (H offline_cfg net_down ali now0 COLLECT_EMAIL w1)
    as (_ & _ & _ & Hn & _).
  vm_compute in Hn. discriminate.
Qed.

(** C8 (as amended): in each stage of the flow the cancel command ends the
    conversation (back to Idle), sends the cancellation message and nothing
    else, and writes nothing to the lead log; the user's dict, with the
    fields collected so far, is left as it is. *)
Theorem cancel_ends_conversation cfg net usr now full s w :
  let app' := process_update cfg net
                (mkUpdate usr (Command (u "cancel") full) now)
                (mkApp (Some s) w) in
  conversation app' = None
  /\ sent (world app') = sent w ++ [ReplyText CANCELLED None]
  /\ leads_csv (world app') = leads_csv w
  /\ journal (world app') = journal w
  /\ user_data (world app') = user_data w.
Proof.
  intros app'. subst app'. rewrite process_cancel. repeat split.
Qed.

(** C10: ending the flow deletes nothing.  A cancel command in any stage,
    and the note that completes the flow, leave the user's dict exactly as
    it was, so the fields the stage handlers wrote are still there. *)
Theorem flow_end_keeps_user_data cfg net usr now w :
  (forall s full,
     user_data (world (process_update cfg net
                         (mkUpdate usr (Command (u "cancel") full) now)
                         (mkApp (Some s) w))) = user_data w)
  /\ (forall note,
        let app' := process_update cfg net (mkUpdate usr (PlainText note) now)
                                   (mkApp (Some COLLECT_NOTE) w) in
        conversation app' = None
        /\ user_data (world app') = user_data w
        /\ ud_lead_name (user_data (world app')) = ud_lead_name (user_data w)
        /\ ud_lead_email (user_data (world app')) = ud_lead_email (user_data w)
        /\ ud_lead_need (user_data (world app')) = ud_lead_need (user_data w)).
Proof.
  split.
  - intros s full. now rewrite process_cancel.
  - intros note app'. subst app'. rewrite process_note, collect_note_run.
    repeat split.
Qed.

(** After the example flow has completed, the three fields are still in the
    user's dict. *)
Example ali_fields_remain :
  let upds := [ mkUpdate ali contact_cmd now0;
                mkUpdate ali (PlainText (u "Ali")) now0;
                mkUpdate ali (PlainText (u "ali@example.com")) now0;
                mkUpdate ali (PlainText (u "need a website")) now0 ] in
  let ud := user_data (world (run offline_cfg net_down upds (mkApp None world0))) in
  ud_lead_name ud = Some (u "Ali")
  /\ ud_lead_email ud = Some (u "ali@example.com")
  /\ ud_lead_need ud = Some DEFAULT_NEED.
Proof. vm_compute. repeat split. Qed.

(* ===================================================================== *)
(** * More on trimming and on the e-mail pattern *)
(* ===================================================================== *)

Lemma lstrip_split s : exists a, s = a ++ lstrip s /\ blank a = true.
Proof.
  induction s as [|c s (a & E & Ha)]; [now exists []|].
  simpl. destruct (is_space c) eqn:Ec.
  - exists (c :: a). simpl. rewrite Ec, Ha. split; [now f_equal | reflexivity].
  - now exists [].
Qed.

Lemma lstrip_snoc y c :
  is_space c = false -> lstrip (y ++ [c]) = lstrip y ++ [c].
Proof.
  intros Hc. induction y as [|a y IH]; simpl.
  - now rewrite Hc.
  - destruct (is_space a); [exact IH | reflexivity].
Qed.

Lemma lstrip_blank s : blank s = true -> lstrip s = [].
Proof.
  induction s as [|c s IH]; simpl; [reflexivity|].
  intros H. apply andb_prop in H as [Hc Hs]. rewrite Hc. auto.
Qed.

Lemma blank_rev a : blank a = true -> blank (rev a) = true.
Proof.
  unfold blank. rewrite !forallb_forall. intros H c Hc.
  apply H. now apply in_rev.
Qed.

Lemma rstrip_split s : exists b, s = rstrip s ++ b /\ blank b = true.
Proof.
  unfold rstrip. destruct (lstrip_split (rev s)) as (a & E & Ha).
  exists (rev a). split; [|now apply blank_rev].
  rewrite <- rev_app_distr, <- E. now rewrite rev_involutive.
Qed.

Lemma strip_split s :
  exists a b, s = a ++ strip s ++ b /\ blank a = true /\ blank b = true.
Proof.
  unfold strip. destruct (lstrip_split s) as (a & Ea & Ha).
  destruct (rstrip_split (lstrip s)) as (b & Eb & Hb).
  exists a, b. split; [|now split].
  now rewrite <- Eb.
Qed.

Lemma strip_head s c r : strip s = c :: r -> is_space c = false.
Proof.
  unfold strip, rstrip. destruct (lstrip s) as [|c0 x] eqn:E; [discriminate|].
  pose proof (lstrip_head _ _ _ E) as H0.
  cbn [rev]. rewrite lstrip_snoc by exact H0.
  rewrite rev_app_distr. cbn. intros H. injection H as <- _. exact H0.
Qed.

Lemma strip_blank s : blank s = true -> strip s = [].
Proof.
  intros H. unfold strip. now rewrite lstrip_blank.
Qed.

Lemma strip_strip s : strip (strip s) = strip s.
Proof.
  unfold strip at 1.
  rewrite lstrip_id by (intros c r E; now apply strip_head with s r).
  unfold rstrip. rewrite lstrip_id.
  - apply rev_involutive.
  - intros c r E. now apply strip_last with s r.
Qed.

Lemma spec_word_no_at x : spec_word x -> count_occ N.eq_dec x 64%N = 0%nat.
Proof.
  intros [_ H]. apply count_occ_not_In. intros Hin. now destruct (H _ Hin).
Qed.

Lemma spec_email_shape_facts s :
  spec_email_shape s ->
  count_occ N.eq_dec s 64%N = 1%nat /\ (5 <= List.length s)%nat.
Proof.
  intros (l & d & t & -> & Hl & Hd & Ht).
  rewrite !count_occ_app, (spec_word_no_at l), (spec_word_no_at d),
    (spec_word_no_at t) by assumption.
  split; [reflexivity|].
  destruct Hl as [Hl _], Hd as [Hd _], Ht as [Ht _].
  rewrite !length_app.
  destruct l, d, t; try congruence. cbn. lia.
Qed.

(** X1: what [EMAIL_RE.match] accepts, on any text: exactly the texts
    local@domain.tld whose three parts are non-empty and free of whitespace
    and of "@", and those texts followed by one newline (the pattern ends in
    [$] and is used with [match]). *)
Theorem EMAIL_RE_language s :
  EMAIL_RE_match s = true <->
  spec_email_shape s \/ exists s', s = s' ++ nl /\ spec_email_shape s'.
Proof. apply EMAIL_RE_match_spec. Qed.

(** X2: a text accepted by [EMAIL_RE] holds exactly one "@", and at least
    five characters; a text with two "@" or shorter than [a@b.c] is
    refused. *)
Theorem EMAIL_RE_one_at s :
  EMAIL_RE_match s = true ->
  count_occ N.eq_dec s 64%N = 1%nat /\ (5 <= List.length s)%nat.
Proof.
  intros H. apply EMAIL_RE_match_spec in H as [H|(s' & -> & H)];
    apply spec_email_shape_facts in H as [H1 H2].
  - now split.
  - rewrite count_occ_app, length_app, H1. cbn. split; lia.
Qed.

Lemma EMAIL_RE_one_at_witness :
  count_occ N.eq_dec (u "ali@example.com") 64%N = 1%nat
  /\ (5 <= List.length (u "ali@example.com"))%nat.
Proof. apply EMAIL_RE_one_at. vm_compute. reflexivity. Defined.

(* ===================================================================== *)
(** * More on the conversational memory *)
(* ===================================================================== *)

Lemma add_user_memory_unfold r c limit w :
  add_user_memory r c limit w =
  (Returned tt,
   set_user_data
     (mkUserData (Some (slice_from (- limit) (transcript w ++ [mkMessage r c])))
                 (ud_lead_name (user_data w)) (ud_lead_email (user_data w))
                 (ud_lead_need (user_data w))) w).
Proof. reflexivity. Qed.

(** X3: for any positive [limit], one [add_user_memory] call never raises,
    leaves at most [limit] entries, namely the most recent ones of the old
    transcript followed by the new entry, which is always kept as the last
    one; nothing else of the world changes. *)
Theorem add_user_memory_keeps_last r c limit w :
  (0 < limit)%Z ->
  let w' := snd (add_user_memory r c limit w) in
  let all := transcript w ++ [mkMessage r c] in
  fst (add_user_memory r c limit w) = Returned tt
  /\ transcript w' = skipn (List.length all - Z.to_nat limit) all
  /\ (List.length (transcript w') <= Z.to_nat limit)%nat
  /\ (exists older, transcript w' = older ++ [mkMessage r c])
  /\ same_leads w w' /\ sent w' = sent w /\ journal w' = journal w.
Proof.
  intros Hl w' all. subst w'. rewrite add_user_memory_unfold. cbn [fst snd].
  fold all.
  assert (E : slice_from (- limit) all
              = skipn (List.length all - Z.to_nat limit) all).
  { unfold slice_from. destruct (Z.ltb_spec (- limit) 0); [|lia].
    f_equal. lia. }
  unfold transcript at 1 2 3. cbn [set_user_data user_data ud_mem get].
  rewrite E. split; [reflexivity|]. split; [reflexivity|].
  split; [rewrite length_skipn; lia|].
  split; [|repeat split].
  exists (skipn (List.length all - Z.to_nat limit) (transcript w)).
  unfold all at 2. rewrite skipn_app.
  replace (List.length all - Z.to_nat limit - List.length (transcript w))%nat
    with 0%nat; [reflexivity|].
  unfold all. rewrite length_app. cbn. lia.
Qed.

Lemma add_user_memory_keeps_last_witness :
  transcript (snd (add_user_memory (u "user") (u "hi") 1 world0))
  = [mkMessage (u "user") (u "hi")].
Proof.
  apply (proj1 (proj2 (add_user_memory_keeps_last (u "user") (u "hi") 1 world0
                         eq_refl))).
Defined.

(** X4: with [limit] zero or negative the slice [mem[-limit:]] does not
    keep the last entries: it drops the first [-limit] ones.  In particular
    [limit = 0] evicts nothing, so the transcript grows by one entry per
    call without bound. *)
Theorem add_user_memory_nonpositive_limit r c limit w :
  (limit <= 0)%Z ->
  let w' := snd (add_user_memory r c limit w) in
  let all := transcript w ++ [mkMessage r c] in
  transcript w' = skipn (Z.to_nat (- limit)) all
  /\ (limit = 0%Z -> transcript w' = all
                     /\ List.length (transcript w') = S (List.length (transcript w))).
Proof.
  intros Hl w' all. subst w'. rewrite add_user_memory_unfold. cbn [snd].
  fold all. unfold transcript at 1 2 3. cbn [set_user_data user_data ud_mem get].
  assert (E : slice_from (- limit) all = skipn (Z.to_nat (- limit)) all).
  { unfold slice_from. destruct (Z.ltb_spec (- limit) 0); [lia|].
    destruct (Z.le_gt_cases (- limit) (Z.of_nat (List.length all))).
    - now rewrite Z.min_l.
    - rewrite Z.min_r, Nat2Z.id by lia.
      now rewrite !skipn_all2 by lia. }
  rewrite E. split; [reflexivity|].
  intros ->. cbn. split; [reflexivity|].
  unfold all. rewrite length_app. cbn. lia.
Qed.

Lemma add_user_memory_nonpositive_limit_witness :
  transcript (snd (add_user_memory (u "user") (u "b") 0
                     (snd (add_user_memory (u "user") (u "a") 0 world0))))
  = [mkMessage (u "user") (u "a"); mkMessage (u "user") (u "b")].
Proof.
  apply (proj1 (add_user_memory_nonpositive_limit (u "user") (u "b") 0
                  (snd (add_user_memory (u "user") (u "a") 0 world0))
                  (Z.le_refl 0))).
Defined.

(* ===================================================================== *)
(** * More on the lead store *)
(* ===================================================================== *)

(** X5: two [save_lead] calls in a row never raise and leave the log as it
    was initialised (the header alone if it was absent, its rows otherwise)
    followed by the two rows in call order: the header is written at most
    once and no earlier row is lost.  Each row has as many cells as the
    header, and nothing but the log changes. *)
Theorem save_lead_twice n1 e1 d1 u1 t1 n2 e2 d2 u2 t2 w :
  (save_lead n1 e1 d1 u1 t1 ;; save_lead n2 e2 d2 u2 t2) w
  = (Returned tt,
     set_leads_csv
       (Some (initialized (leads_csv w)
              ++ [lead_row u1 n1 e1 d1 t1; lead_row u2 n2 e2 d2 t2])) w)
  /\ List.length (lead_row u1 n1 e1 d1 t1) = List.length HEADER
  /\ List.length (lead_row u2 n2 e2 d2 t2) = List.length HEADER.
Proof.
  split; [|split; reflexivity].
  unfold bind. rewrite !save_lead_run.
  destruct w as [ud f s j]. cbn. now rewrite <- app_assoc.
Qed.

Lemma str_of_int_inj i j : str_of_int i = str_of_int j -> i = j.
Proof.
  unfold str_of_int. intros H.
  apply (f_equal (map ascii_of_N)) in H. rewrite !map_map in H.
  rewrite !(map_ext _ (fun a => a) ascii_N_embedding), !map_id in H.
  apply (f_equal string_of_list_ascii) in H.
  rewrite !string_of_list_ascii_of_string in H.
  apply (f_equal DecimalString.NilEmpty.int_of_string) in H.
  rewrite !DecimalString.NilEmpty.isi in H. injection H as H.
  apply (f_equal Z.of_int) in H. now rewrite !DecimalZ.of_to in H.
Qed.

Example str_of_int_samples :
  str_of_int 0 = u "0" /\ str_of_int 42 = u "42" /\ str_of_int (-17) = u "-17".
Proof. vm_compute. repeat split. Qed.

(** X6: the contact-handle cell of a row identifies the user: two rows
    with the same fifth cell come from updates of the same user id. *)
Theorem contact_handle_identifies_user upd1 n1 e1 d1 t1 upd2 n2 e2 d2 t2 :
  nth_error (lead_row upd1 n1 e1 d1 t1) 4 = nth_error (lead_row upd2 n2 e2 d2 t2) 4 ->
  user_id (effective_user upd1) = user_id (effective_user upd2).
Proof.
  cbn [lead_row nth_error]. intros H. injection H as H.
  now apply str_of_int_inj.
Qed.

Lemma contact_handle_identifies_user_witness :
  user_id (effective_user (mkUpdate ali (PlainText (u "a")) now0))
  = user_id (effective_user (mkUpdate ali (PlainText (u "b")) now0)).
Proof.
  apply (contact_handle_identifies_user
           (mkUpdate ali (PlainText (u "a")) now0) [] [] [] []
           (mkUpdate ali (PlainText (u "b")) now0) [] [] [] []).
  reflexivity.
Defined.

(* ===================================================================== *)
(** * More on the service catalogue *)
(* ===================================================================== *)

Lemma split1_no_sep sep s : ~ In sep s -> split1 sep s = [s].
Proof.
  induction s as [|c s IH]; intros H; [reflexivity|].
  cbn [split1]. destruct (N.eqb_spec c sep) as [->|Hne].
  - exfalso. apply H. now left.
  - rewrite IH; [reflexivity|]. intros Hin. apply H. now right.
Qed.

Lemma split1_at_sep sep p k : ~ In sep p -> split1 sep (p ++ [sep] ++ k) = [p; k].
Proof.
  induction p as [|c p IH]; intros H.
  - cbn. now rewrite N.eqb_refl.
  - cbn [app split1]. destruct (N.eqb_spec c sep) as [->|Hne].
    + exfalso. apply H. now left.
    + change (p ++ sep :: k) with (p ++ [sep] ++ k).
      rewrite IH; [reflexivity|]. intros Hin. apply H. now right.
Qed.

(** X7: the handler alone, on any payload.  Without a colon in the payload
    it raises [IndexError], after the query was answered and before any
    message is edited.  With a colon, the key is everything after the first
    colon, whatever stands before it: the handler never raises, and
    edits the message to the entry of that key or to the error text. *)
Theorem on_service_click_needs_colon upd w :
  (~ In 58%N (query_data upd) ->
   on_service_click upd w = (Raised IndexError, send_more w [AnswerQuery]))
  /\ (forall p key, query_data upd = p ++ [58%N] ++ key -> ~ In 58%N p ->
        on_service_click upd w
        = (Returned NoResult,
           send_more w
             [AnswerQuery;
              match dict_get key SERVICES with
              | Some s => EditMessageText (service_message s) (Some (u "Markdown"))
              | None => EditMessageText SERVICE_ERROR None
              end])).
Proof.
  split.
  - intros H. unfold on_service_click, bind, send, raise.
    now rewrite (split1_no_sep _ _ H).
  - intros p key E H. unfold on_service_click, bind, send, ret.
    rewrite E, (split1_at_sep _ _ key H). cbn [nth_error].
    destruct (dict_get key SERVICES); unfold send_more; cbn;
      now rewrite <- app_assoc.
Qed.

Lemma on_service_click_needs_colon_witness :
  on_service_click (mkUpdate ali (CallbackQuery (u "any:web:x")) now0) world0
  = (Returned NoResult,
     send_more world0 [AnswerQuery; EditMessageText SERVICE_ERROR None]).
Proof.
  apply (proj2 (on_service_click_needs_colon
                  (mkUpdate ali (CallbackQuery (u "any:web:x")) now0) world0)
               (u "any") (u "web:x")).
  - reflexivity.
  - vm_compute. intuition discriminate.
Defined.

Lemma SERVICES_get key s : In (key, s) SERVICES -> dict_get key SERVICES = Some s.
Proof.
  unfold SERVICES. cbn [In].
  intros [H|[H|[H|[H|[H|[]]]]]]; injection H as <- <-; vm_compute; reflexivity.
Qed.

(** X8: [services] sends one message whose keyboard has one row per entry
    of the catalogue, and every button of it leads back to its entry: its
    payload is routed to [on_service_click] in every state, which then
    shows the message of the entry the button is labelled with, never the
    error text. *)
Theorem services_buttons_resolve cfg net st usr now upd0 w :
  exists kb,
    services upd0 w
    = (Returned NoResult,
       send_more w [ReplyText (u "اختر الخدمة التي تهمك:") (Some kb)])
    /\ List.length kb = List.length SERVICES
    /\ forall row, In row kb ->
         exists b s,
           row = [b] /\ label b = name s
           /\ (let upd := mkUpdate usr (CallbackQuery (callback_data b)) now in
               route cfg net st upd = Plain (on_service_click upd)
               /\ forall w1,
                    on_service_click upd w1
                    = (Returned NoResult,
                       send_more w1
                         [AnswerQuery;
                          EditMessageText (service_message s)
                                          (Some (u "Markdown"))])).
Proof.
  eexists. split; [reflexivity|]. split; [now rewrite length_map|].
  intros row Hin. apply in_map_iff in Hin as ([key s] & <- & Hin).
  exists (mkButton (name s) (u "svc:" ++ key)), s.
  cbn [fst snd label callback_data]. split; [reflexivity|].
  split; [reflexivity|]. split; [apply route_svc|].
  intros w1. now rewrite on_service_click_run, (SERVICES_get _ _ Hin).
Qed.

(* ===================================================================== *)
(** * More on the dispatcher *)
(* ===================================================================== *)

(** X9: updates no handler accepts leave everything as it was: [/contact]
    inside a conversation (re-entry is not allowed), [/cancel] outside one,
    any command other than start, services, contact and cancel, and any
    callback whose payload does not start with ["svc:"]. *)
Theorem ignored_updates cfg net usr now w :
  (forall s full,
     process_update cfg net (mkUpdate usr (Command (u "contact") full) now)
                    (mkApp (Some s) w) = mkApp (Some s) w)
  /\ (forall full,
        process_update cfg net (mkUpdate usr (Command (u "cancel") full) now)
                       (mkApp None w) = mkApp None w)
  /\ (forall st c full,
        text_eqb c (u "start") = false -> text_eqb c (u "services") = false ->
        text_eqb c (u "contact") = false -> text_eqb c (u "cancel") = false ->
        process_update cfg net (mkUpdate usr (Command c full) now) (mkApp st w)
        = mkApp st w)
  /\ (forall st d,
        startswith (u "svc:") d = false ->
        process_update cfg net (mkUpdate usr (CallbackQuery d) now) (mkApp st w)
        = mkApp st w).
Proof.
  split; [|split; [|split]].
  - intros [| |] full; reflexivity.
  - intros full. reflexivity.
  - intros st c full H1 H2 H3 H4.
    unfold process_update, route, is_command. cbn [payload conversation world].
    rewrite H1, H2.
    destruct st as [[| |]|]; cbn [conv_handler payload]; rewrite ?H3, ?H4;
      reflexivity.
  - intros st d H.
    unfold process_update, route, is_command. cbn [payload conversation world].
    rewrite H. destruct st as [[| |]|]; reflexivity.
Qed.

Lemma ignored_updates_witness :
  process_update offline_cfg net_down
    (mkUpdate ali (Command (u "help") (u "/help")) now0)
    (mkApp (Some COLLECT_EMAIL) world0)
  = mkApp (Some COLLECT_EMAIL) world0.
Proof.
  apply (proj1 (proj2 (proj2 (ignored_updates offline_cfg net_down ali now0
                                world0))));
    reflexivity.
Defined.

Lemma start_journal cfg upd w : journal (snd (start cfg upd w)) = journal w.
Proof. unfold start, bind. now rewrite add_user_memory_run. Qed.

Lemma on_service_click_journal upd w :
  journal (snd (on_service_click upd w)) = journal w.
Proof.
  unfold on_service_click, bind, send, ret, raise.
  destruct (nth_error (split1 58 (query_data upd)) 1) as [key|];
    [destruct (dict_get key SERVICES)|]; reflexivity.
Qed.

(** X10: the generation backends are reached only by a plain text outside
    the conversation.  Every other update leaves the journal (backend calls
    and warnings) as it was; inside the conversation a plain text is
    consumed by the stage handler and does not touch the transcript
    either. *)
Theorem backends_only_for_idle_text cfg net upd app :
  let app' := process_update cfg net upd app in
  (journal (world app') = journal (world app)
   \/ (conversation app = None /\ exists t, payload upd = PlainText t))
  /\ (forall s t, conversation app = Some s -> payload upd = PlainText t ->
        journal (world app') = journal (world app)
        /\ ud_mem (user_data (world app')) = ud_mem (user_data (world app))).
Proof.
  destruct app as [st w]. destruct upd as [usr pl now].
  cbn [conversation world payload]. split.
  - unfold process_update, route, is_command.
    cbn [payload conversation world].
    destruct pl as [c full|t|d].
    + left. destruct (text_eqb c (u "start")); [apply start_journal|].
      destruct (text_eqb c (u "services")); [reflexivity|].
      destruct st as [[| |]|]; cbn [conv_handler payload];
        match goal with |- context [text_eqb c ?k] => destruct (text_eqb c k) end;
        reflexivity.
    + destruct st as [[| |]|]; cbn [conv_handler payload].
      * left. reflexivity.
      * left. rewrite collect_email_run.
        destruct (EMAIL_RE_match (strip t)); reflexivity.
      * left. rewrite collect_note_run. reflexivity.
      * right. eauto.
    + left. destruct (startswith (u "svc:") d); [apply on_service_click_journal|].
      destruct st as [[| |]|]; reflexivity.
  - intros s t -> ->. unfold process_update. cbn [conversation world].
    rewrite route_text_in_stage. destruct s.
    + split; reflexivity.
    + rewrite collect_email_run.
      destruct (EMAIL_RE_match (strip t)); split; reflexivity.
    + rewrite collect_note_run. split; reflexivity.
Qed.

(** X11: the name stage validates nothing.  Any plain text advances to the
    e-mail stage and stores the text without its leading and trailing
    whitespace (what is stored neither starts nor ends with whitespace, and
    the typed text is it between two runs of whitespace); a text of
    whitespace only stores the empty name.  The e-mail, the need, the
    transcript and the lead log are untouched. *)
Theorem name_stage_accepts_any_text cfg net usr now t w :
  let app' := process_update cfg net (mkUpdate usr (PlainText t) now)
                             (mkApp (Some COLLECT_NAME) w) in
  let ud' := user_data (world app') in
  conversation app' = Some COLLECT_EMAIL
  /\ ud_lead_name ud' = Some (strip t)
  /\ (exists a b, t = a ++ strip t ++ b /\ blank a = true /\ blank b = true)
  /\ (forall c r, strip t = c :: r -> is_space c = false)
  /\ (forall c r, rev (strip t) = c :: r -> is_space c = false)
  /\ (blank t = true -> ud_lead_name ud' = Some [])
  /\ ud_lead_email ud' = ud_lead_email (user_data w)
  /\ ud_lead_need ud' = ud_lead_need (user_data w)
  /\ ud_mem ud' = ud_mem (user_data w)
  /\ leads_csv (world app') = leads_csv w
  /\ sent (world app') = sent w ++ [ReplyText (u "بريدك الإلكتروني؟") None].
Proof.
  intros app' ud'. subst ud' app'. unfold process_update.
  cbn [conversation world]. rewrite route_text_in_stage, collect_name_run.
  cbn [message_text payload conversation world user_data ud_lead_name
       ud_lead_email ud_lead_need ud_mem leads_csv sent].
  split; [reflexivity|]. split; [reflexivity|].
  split; [apply strip_split|].
  split; [apply strip_head|]. split; [apply strip_last|].
  split; [intros H; now rewrite strip_blank|].
  repeat split.
Qed.

Lemma name_stage_accepts_any_text_witness :
  ud_lead_name
    (user_data
       (world (process_update offline_cfg net_down
                 (mkUpdate ali (PlainText (u "   ")) now0)
                 (mkApp (Some COLLECT_NAME) world0)))) = Some [].
Proof.
  apply (name_stage_accepts_any_text offline_cfg net_down ali now0 (u "   ")
           world0).
  reflexivity.
Defined.

Lemma send_more_more w a b : send_more (send_more w a) b = send_more w (a ++ b).
Proof. unfold send_more. cbn. now rewrite app_assoc. Qed.

Lemma send_more_nil w : send_more w [] = w.
Proof. destruct w. unfold send_more. cbn. now rewrite app_nil_r. Qed.

(** X12: the e-mail stage has no retry limit.  Any number of texts whose
    trimmed form has not the e-mail shape keeps the conversation in the
    e-mail stage; each one is answered by the same re-prompt, and nothing
    else changes. *)
Theorem email_reprompt_loop cfg net usr now ts : forall w,
  Forall (fun t => ~ spec_email_shape (strip t)) ts ->
  run cfg net (map (fun t => mkUpdate usr (PlainText t) now) ts)
      (mkApp (Some COLLECT_EMAIL) w)
  = mkApp (Some COLLECT_EMAIL)
          (send_more w (repeat (ReplyText EMAIL_REPROMPT None) (List.length ts))).
Proof.
  induction ts as [|t ts IH]; intros w H.
  - cbn. now rewrite send_more_nil.
  - inversion H as [|? ? Ht Hts]; subst.
    cbn [map run fold_left List.length repeat].
    unfold process_update at 2. cbn [conversation world].
    rewrite route_text_in_stage, collect_email_run.
    destruct (EMAIL_RE_match (strip t)) eqn:Em.
    + exfalso. apply Ht. now apply EMAIL_RE_match_strip.
    + fold (send_more w [ReplyText EMAIL_REPROMPT None]).
      change (fold_left (fun a upd => process_update cfg net upd a) ?l ?a)
        with (run cfg net l a).
      rewrite (IH _ Hts), send_more_more. reflexivity.
Qed.

Lemma email_reprompt_loop_witness :
  run offline_cfg net_down
      (map (fun t => mkUpdate ali (PlainText t) now0) [u "ali"; u "a@b"; u "a b@c.d"])
      (mkApp (Some COLLECT_EMAIL) world0)
  = mkApp (Some COLLECT_EMAIL)
          (send_more world0 (repeat (ReplyText EMAIL_REPROMPT None) 3)).
Proof.
  apply (email_reprompt_loop offline_cfg net_down ali now0
           [u "ali"; u "a@b"; u "a b@c.d"] world0).
  repeat constructor; intros H; apply EMAIL_RE_match_strip in H;
    vm_compute in H; discriminate.
Defined.

(** X13: a whole flow, from Idle and from any world.  After [/contact], any
    text for the name, a text whose trimmed form has the e-mail shape, and
    any text for the note, the conversation is over and the log holds one
    more row, made of the three trimmed texts of this flow and the default
    need, whatever the user's dict held before: fields left by an earlier
    flow never reach the log.  Four messages are sent; no backend is
    called and the transcript is untouched. *)
Theorem complete_flow_record cfg net usr full now1 now2 now3 now4
        typed_name typed_email typed_note w :
  spec_email_shape (strip typed_email) ->
  let note_upd := mkUpdate usr (PlainText typed_note) now4 in
  let upds := [ mkUpdate usr (Command (u "contact") full) now1;
                mkUpdate usr (PlainText typed_name) now2;
                mkUpdate usr (PlainText typed_email) now3;
                note_upd ] in
  let app' := run cfg net upds (mkApp None w) in
  conversation app' = None
  /\ leads_csv (world app')
     = Some (initialized (leads_csv w)
             ++ [lead_row note_upd (strip typed_name) (strip typed_email)
                          DEFAULT_NEED (strip typed_note)])
  /\ List.length (sent (world app')) = (List.length (sent w) + 4)%nat
  /\ journal (world app') = journal w
  /\ ud_mem (user_data (world app')) = ud_mem (user_data w).
Proof.
  intros Hs note_upd upds app'. subst app' upds note_upd.
  cbn [run fold_left].
  rewrite process_contact, process_name, (process_email_ok _ _ _ _ _ _ Hs),
    process_note.
  rewrite collect_note_run, collect_email_run, collect_name_run,
    contact_start_run, (proj2 (EMAIL_RE_match_strip typed_email) Hs).
  cbn [snd conversation world leads_csv user_data ud_lead_name ud_lead_email
       ud_lead_need ud_mem get message_text payload sent journal].
  repeat split. rewrite !length_app. cbn. lia.
Qed.

Lemma complete_flow_record_witness :
  conversation
    (run offline_cfg net_down
       [ mkUpdate ali contact_cmd now0;
         mkUpdate ali (PlainText (u " Ali ")) now0;
         mkUpdate ali (PlainText (u "ali@example.com")) now0;
         mkUpdate ali (PlainText (u "a shop")) now0 ]
       (mkApp None
          (mkWorld (mkUserData None (Some (u "Old")) (Some (u "old@x.y"))
                               (Some (u "old need")))
                   None [] []))) = None.
Proof.
  apply (complete_flow_record offline_cfg net_down ali (u "/contact")
           now0 now0 now0 now0 (u " Ali ") (u "ali@example.com") (u "a shop")).
  apply EMAIL_RE_match_strip. vm_compute. reflexivity.
Defined.

Lemma skipn_keeps_tail {A} (l tail : list A) n :
  (List.length tail <= n)%nat ->
  exists older,
    skipn (List.length (l ++ tail) - n) (l ++ tail) = older ++ tail.
Proof.
  intros H. exists (skipn (List.length (l ++ tail) - n) l).
  rewrite skipn_app.
  replace (List.length (l ++ tail) - n - List.length l)%nat with 0%nat;
    [reflexivity|].
  rewrite length_app. lia.
Qed.

Lemma transcript_log_more w j : transcript (log_more w j) = transcript w.
Proof. reflexivity. Qed.

(** What [ai_reply] does, in terms of the reply the generator gives in the
    world where the user's text has been remembered. *)
Lemma ai_reply_run cfg net upd w :
  let t := message_text upd in
  let w1 := snd (add_user_memory (u "user") t default_limit w) in
  exists reply j,
    ai_generate_reply cfg net t w1 = (Returned reply, log_more w1 j)
    /\ ai_reply cfg net upd w
       = (Returned NoResult,
          send_more
            (snd (add_user_memory (u "assistant") reply default_limit
                    (log_more w1 j)))
            [ReplyText reply None]).
Proof.
  intros t w1.
  destruct (ai_generate_reply_returns cfg net t w1) as (reply & j & E).
  exists reply, j. split; [exact E|].
  assert (Ea : add_user_memory (u "user") t default_limit w = (Returned tt, w1))
    by (unfold w1; now rewrite add_user_memory_run).
  assert (Eb : add_user_memory (u "assistant") reply default_limit (log_more w1 j)
               = (Returned tt,
                  snd (add_user_memory (u "assistant") reply default_limit
                         (log_more w1 j))))
    by now rewrite add_user_memory_run.
  unfold ai_reply, bind. fold t. rewrite Ea, E, Eb. reflexivity.
Qed.

Lemma process_idle_text cfg net usr now t w :
  process_update cfg net (mkUpdate usr (PlainText t) now) (mkApp None w)
  = mkApp None (snd (ai_reply cfg net (mkUpdate usr (PlainText t) now) w)).
Proof. reflexivity. Qed.

(** X14: outside the conversation a plain text is answered by the
    generator.  Exactly one message is sent, the generator's reply; the
    transcript then ends with the user's text followed by that reply and
    holds at most six entries; the conversation stays Idle and the lead
    fields and the lead log are untouched. *)
Theorem idle_text_is_answered cfg net usr now t w :
  let upd := mkUpdate usr (PlainText t) now in
  let app' := process_update cfg net upd (mkApp None w) in
  let w1 := snd (add_user_memory (u "user") t default_limit w) in
  exists reply older,
    fst (ai_generate_reply cfg net t w1) = Returned reply
    /\ conversation app' = None
    /\ sent (world app') = sent w ++ [ReplyText reply None]
    /\ transcript (world app')
       = older ++ [mkMessage (u "user") t; mkMessage (u "assistant") reply]
    /\ (List.length (transcript (world app')) <= 6)%nat
    /\ same_leads w (world app').
Proof.
  intros upd app' w1. subst app' upd. rewrite process_idle_text.
  destruct (ai_reply_run cfg net (mkUpdate usr (PlainText t) now) w)
    as (reply & j & E & Er).
  change (message_text (mkUpdate usr (PlainText t) now)) with t in E, Er.
  fold w1 in E, Er.
  rewrite Er. cbn [snd conversation world].
  assert (Et : transcript
                 (send_more
                    (snd (add_user_memory (u "assistant") reply default_limit
                            (log_more w1 j)))
                    [ReplyText reply None])
               = skipn (List.length (transcript w ++ [mkMessage (u "user") t;
                                                      mkMessage (u "assistant") reply]) - 6)
                       (transcript w ++ [mkMessage (u "user") t;
                                         mkMessage (u "assistant") reply])).
  { change (transcript (send_more ?x _)) with (transcript x).
    rewrite transcript_add, transcript_log_more. unfold w1.
    rewrite transcript_add.
    rewrite (skipn_window (transcript w ++ [mkMessage (u "user") t])
                          [mkMessage (u "assistant") reply]).
    now rewrite <- app_assoc. }
  destruct (skipn_keeps_tail (transcript w)
              [mkMessage (u "user") t; mkMessage (u "assistant") reply] 6)
    as (older & Eo); [cbn; lia|].
  exists reply, older. rewrite Et.
  split; [now rewrite E|]. split; [reflexivity|].
  split.
  { rewrite !add_user_memory_run. unfold w1. rewrite add_user_memory_run.
    reflexivity. }
  split; [exact Eo|]. split; [rewrite length_skipn; lia|].
  rewrite !add_user_memory_run. unfold w1. rewrite add_user_memory_run.
  repeat split.
Qed.

Lemma ai_generate_reply_first_call cfg net t w :
  openai_configured cfg = true ->
  exists reply rest,
    ai_generate_reply cfg net t w
    = (Returned reply,
       log_more w (OpenAICall (mkChatRequest (OPENAI_MODEL cfg)
                                 (chat_messages cfg t (user_data w))) :: rest)).
Proof.
  intros Hk. rewrite ai_generate_reply_run. cbv zeta. rewrite Hk.
  destruct (openai_reply net _);
    [|destruct (USE_OLLAMA cfg); [destruct (ollama_reply net _)|]];
    cbn [app]; eauto.
Qed.

(** X15: with the hosted provider configured, the request [ai_reply] makes
    holds the user's text twice at its end: the text is remembered before
    the generator runs, and the generator appends it again to the
    transcript it reads.  The request starts with the system prompt. *)
Theorem ai_reply_request_repeats_user_text cfg net usr now t w :
  openai_configured cfg = true ->
  let app' := process_update cfg net (mkUpdate usr (PlainText t) now)
                             (mkApp None w) in
  exists req rest older,
    journal (world app') = journal w ++ OpenAICall req :: rest
    /\ req_model req = OPENAI_MODEL cfg
    /\ req_messages req
       = mkMessage (u "system") (system_prompt cfg)
         :: older ++ [mkMessage (u "user") t; mkMessage (u "user") t].
Proof.
  intros Hk app'. subst app'. rewrite process_idle_text.
  destruct (ai_reply_run cfg net (mkUpdate usr (PlainText t) now) w)
    as (reply & j & E & Er).
  change (message_text (mkUpdate usr (PlainText t) now)) with t in E, Er.
  set (w1 := snd (add_user_memory (u "user") t default_limit w)) in *.
  destruct (ai_generate_reply_first_call cfg net t w1 Hk) as (reply' & rest & E').
  pose proof (eq_trans (eq_sym E) E') as Ej.
  apply (f_equal (fun p => journal (snd p))) in Ej.
  cbn [snd log_more journal] in Ej. apply app_inv_head in Ej. subst j.
  destruct (skipn_keeps_tail (transcript w) [mkMessage (u "user") t] 6)
    as (older & Eo); [cbn; lia|].
  eexists _, rest, older. rewrite Er. cbn [snd world].
  split.
  { rewrite add_user_memory_run. unfold w1. rewrite add_user_memory_run.
    reflexivity. }
  split; [reflexivity|].
  - cbn [req_messages]. unfold chat_messages.
    cbn [snd user_data set_user_data ud_mem get]. rewrite Eo. cbn [app].
    now rewrite <- app_assoc.
Qed.

Lemma ai_reply_request_repeats_user_text_witness :
  exists req rest older,
    journal (world (process_update hosted_cfg net_hosted
                      (mkUpdate ali (PlainText (u "hi")) now0)
                      (mkApp None world0)))
    = journal world0 ++ OpenAICall req :: rest
    /\ req_model req = OPENAI_MODEL hosted_cfg
    /\ req_messages req
       = mkMessage (u "system") (system_prompt hosted_cfg)
         :: older ++ [mkMessage (u "user") (u "hi"); mkMessage (u "user") (u "hi")].
Proof.
  apply (ai_reply_request_repeats_user_text hosted_cfg net_hosted ali now0
           (u "hi") world0 eq_refl).
Defined.

Lemma process_start cfg net usr now full st w :
  process_update cfg net (mkUpdate usr (Command (u "start") full) now) (mkApp st w)
  = mkApp st (snd (start cfg (mkUpdate usr (Command (u "start") full) now) w)).
Proof. reflexivity. Qed.

Lemma process_services cfg net usr now full st w :
  process_update cfg net (mkUpdate usr (Command (u "services") full) now)
                 (mkApp st w)
  = mkApp st (snd (services (mkUpdate usr (Command (u "services") full) now) w)).
Proof. reflexivity. Qed.

(** X16: [/start] and [/services] are served in every state, also inside
    the conversation, and never move it.  [/start] sends one greeting that
    names the company and appends one assistant entry to the transcript;
    [/services] sends one message with a keyboard and changes nothing
    else.  Neither touches the lead fields, the lead log or the
    journal. *)
Theorem start_and_services_in_every_state cfg net usr now full st w :
  (let app' := process_update cfg net
                 (mkUpdate usr (Command (u "start") full) now) (mkApp st w) in
   conversation app' = st
   /\ (exists greeting,
         sent (world app') = sent w ++ [ReplyText greeting None]
         /\ contains (COMPANY_NAME cfg) greeting = true)
   /\ (exists older,
         transcript (world app')
         = older ++ [mkMessage (u "assistant") (u "مرحبا! أنا بوت الشركة.")])
   /\ same_leads w (world app')
   /\ journal (world app') = journal w)
  /\ (let app' := process_update cfg net
                    (mkUpdate usr (Command (u "services") full) now)
                    (mkApp st w) in
      conversation app' = st
      /\ (exists kb prompt,
            sent (world app') = sent w ++ [ReplyText prompt (Some kb)])
      /\ user_data (world app') = user_data w
      /\ leads_csv (world app') = leads_csv w
      /\ journal (world app') = journal w).
Proof.
  split.
  - cbv zeta. rewrite process_start. cbn [conversation world].
    split; [reflexivity|].
    unfold start, bind. rewrite add_user_memory_run.
    cbn [snd reply_text send ret sent set_user_data].
    split; [eexists; split; [reflexivity | find_part]|].
    split; [|repeat split].
    apply (skipn_keeps_tail (transcript w)
             [mkMessage (u "assistant") (u "مرحبا! أنا بوت الشركة.")] 6).
    cbn. lia.
  - cbv zeta. rewrite process_services. cbn [conversation world].
    split; [reflexivity|]. split; [|repeat split].
    eexists _, _. reflexivity.
Qed.

(* ===================================================================== *)
(** * More on the provider chain *)
(* ===================================================================== *)

Lemma dict_get_existsb {V} key (items : list (text * V)) v :
  dict_get key items = Some v ->
  existsb (fun kv => text_eqb (fst kv) key) items = true.
Proof.
  induction items as [|[k x] items IH]; cbn; [discriminate|].
  destruct (text_eqb k key); [reflexivity | exact IH].
Qed.

Lemma existsb_dict_get {V} key (items : list (text * V)) :
  existsb (fun kv => text_eqb (fst kv) key) items = true ->
  exists v, dict_get key items = Some v.
Proof.
  induction items as [|[k x] items IH]; cbn; [discriminate|].
  destruct (text_eqb k key); [eauto | exact IH].
Qed.

(** X17: the local provider alone (no hosted credential, [USE_OLLAMA] on),
    when the endpoint answers with JSON; the endpoint is called once in
    each case.  If the shape test of line 150 is false (no object, no
    ["message"], or a ["message"] without ["content"]) the reply is the
    JSON dump of the answer cut to 800 characters.  If the test raises (a
    ["message"] that is null, a boolean or a number) the reply is the
    offline template and the [TypeError] is logged.  If the test is true,
    the ["message"] is an object, a string or a list: an object with a
    string ["content"] gives that content, trimmed; an object with a
    ["content"] of another type, a string and a list give the offline
    template, and the [AttributeError] or [TypeError] of line 151 is
    logged. *)
Theorem local_provider_reply cfg net t w data :
  openai_configured cfg = false ->
  USE_OLLAMA cfg = true ->
  let req := mkChatRequest (OLLAMA_MODEL cfg)
                           (chat_messages cfg t (user_data w)) in
  ollama_post_json net req = Returned data ->
  let result := ai_generate_reply cfg net t w in
  let skipped (e : exn) :=
    (Returned (offline_template t),
     log_more w [OllamaCall req;
                 LogWarning (u "Ollama error: " ++ exn_str e)]) in
  (has_message_content data = Returned false ->
   result = (Returned (prefix_slice 800 (json_dumps net data)),
             log_more w [OllamaCall req])
   /\ (List.length (prefix_slice 800 (json_dumps net data)) <= 800)%nat)
  /\ (forall e, has_message_content data = Raised e ->
        result = skipped e
        /\ exists fields m,
             data = JObj fields /\ dict_get (u "message") fields = Some m
             /\ e = not_iterable (json_type_name m))
  /\ (has_message_content data = Returned true ->
      exists fields m,
        data = JObj fields /\ dict_get (u "message") fields = Some m
        /\ match m with
           | JObj mfields =>
             exists v,
               dict_get (u "content") mfields = Some v
               /\ match v with
                  | JStr c =>
                    result = (Returned (strip c), log_more w [OllamaCall req])
                  | _ => result = skipped (no_strip (json_type_name v))
                  end
           | JStr _ => result = skipped str_indices
           | JArr _ => result = skipped list_indices
           | _ => False
           end).
Proof.
  intros Hk Hu req Hd result skipped. subst result skipped.
  assert (Hr : ai_generate_reply cfg net t w
               = match ollama_reply net req with
                 | Returned out => (Returned out, log_more w [OllamaCall req])
                 | Raised e =>
                   (Returned (offline_template t),
                    log_more w [OllamaCall req;
                                LogWarning (u "Ollama error: " ++ exn_str e)])
                 end).
  { rewrite ai_generate_reply_run. cbv zeta. fold req. rewrite Hk, Hu.
    reflexivity. }
  rewrite Hr. unfold ollama_reply, obind. rewrite Hd.
  split; [|split].
  - intros ->. split; [reflexivity|].
    unfold prefix_slice. rewrite length_firstn. lia.
  - intros e He. rewrite He. split; [reflexivity|].
    destruct data as [| | | | | |fields]; try discriminate.
    cbn [has_message_content] in He.
    destruct (dict_get (u "message") fields) as [m|] eqn:Hm; [|discriminate].
    exists fields, m. split; [reflexivity|]. split; [exact Hm|].
    destruct m; cbn [json_contains] in He; try discriminate;
      injection He as <-; reflexivity.
  - intros He. rewrite He.
    destruct data as [| | | | | |fields]; try discriminate.
    cbn [has_message_content] in He.
    destruct (dict_get (u "message") fields) as [m|] eqn:Hm; [|discriminate].
    exists fields, m. split; [reflexivity|]. split; [exact Hm|].
    cbn [json_getitem]. rewrite Hm.
    destruct m as [| | | | | |mfields]; cbn [json_contains] in He;
      try discriminate; try reflexivity.
    injection He as He. apply existsb_dict_get in He as (v & Hv).
    exists v. split; [exact Hv|].
    cbn [json_getitem]. rewrite Hv. destruct v; reflexivity.
Qed.

Lemma local_provider_reply_witness :
  ai_generate_reply
    (mkConfig (u "Acme") None (u "gpt-4o-mini") true (u "llama3.1"))
    (mkBackends (fun _ => Raised timed_out)
                (fun _ => Returned (JObj [(u "message",
                                           JObj [(u "content", JInt 5)])]))
                (fun _ => u "null"))
    (u "hi") world0
  = (Returned (offline_template (u "hi")),
     log_more world0
       [OllamaCall
          (mkChatRequest (u "llama3.1")
             (chat_messages
                (mkConfig (u "Acme") None (u "gpt-4o-mini") true (u "llama3.1"))
                (u "hi") (user_data world0)));
        LogWarning (u "Ollama error: 'int' object has no attribute 'strip'")]).
Proof.
  destruct (local_provider_reply
              (mkConfig (u "Acme") None (u "gpt-4o-mini") true (u "llama3.1"))
              (mkBackends (fun _ => Raised timed_out)
                 (fun _ => Returned (JObj [(u "message",
                                            JObj [(u "content", JInt 5)])]))
                 (fun _ => u "null"))
              (u "hi") world0 _ eq_refl eq_refl eq_refl)
    as (_ & _ & H).
  assert (Ht : has_message_content
                 (JObj [(u "message", JObj [(u "content", JInt 5)])])
               = Returned true) by (vm_compute; reflexivity).
  destruct (H Ht) as (fields & m & Ed & Hm & Hcase).
  injection Ed as <-.
  assert (Em : m = JObj [(u "content", JInt 5)]).
  { vm_compute in Hm. injection Hm as <-. vm_compute. reflexivity. }
  subst m. destruct Hcase as (v & Hv & Hres).
  assert (Ev : v = JInt 5).
  { vm_compute in Hv. injection Hv as <-. reflexivity. }
  subst v. etransitivity; [exact Hres|]. vm_compute. reflexivity.
Defined.

(** X18: one call of the generator tries each provider at most once: the
    journal gains at most one hosted call and at most one local call, a
    hosted call only if a credential is configured and then as the first
    entry, a local call only if [USE_OLLAMA] is on; at most four entries
    are added in all. *)
Theorem providers_tried_at_most_once cfg net t w :
  exists reply j,
    ai_generate_reply cfg net t w = (Returned reply, log_more w j)
    /\ (List.length (filter is_openai_call j) <= 1)%nat
    /\ (List.length (filter is_ollama_call j) <= 1)%nat
    /\ (openai_configured cfg = false -> filter is_openai_call j = [])
    /\ (USE_OLLAMA cfg = false -> filter is_ollama_call j = [])
    /\ (openai_configured cfg = true -> exists req rest, j = OpenAICall req :: rest)
    /\ (List.length j <= 4)%nat.
Proof.
  rewrite ai_generate_reply_run. cbv zeta.
  destruct (openai_configured cfg);
    [destruct (openai_reply net _)|];
    try (destruct (USE_OLLAMA cfg); [destruct (ollama_reply net _)|]);
    eexists; eexists; (split; [reflexivity|]); cbn;
    repeat split; try lia; try discriminate; eauto.
Qed.

Lemma lstrip_app x y : lstrip x <> [] -> lstrip (x ++ y) = lstrip x ++ y.
Proof.
  induction x as [|c x IH]; cbn; [congruence|].
  destruct (is_space c); [exact IH | reflexivity].
Qed.

Lemma rstrip_app x y : rstrip y <> [] -> rstrip (x ++ y) = x ++ rstrip y.
Proof.
  unfold rstrip. intros H. rewrite rev_app_distr, lstrip_app.
  - now rewrite rev_app_distr, rev_involutive.
  - intros E. apply H. now rewrite E.
Qed.

Lemma strip_around x c y :
  lstrip x <> [] -> rstrip y <> [] ->
  strip (x ++ c ++ y) = lstrip x ++ c ++ rstrip y.
Proof.
  intros Hx Hy. unfold strip. rewrite lstrip_app by exact Hx.
  now rewrite app_assoc, rstrip_app, <- app_assoc.
Qed.

Lemma system_prompt_parts :
  exists before after,
    forall cfg,
      system_prompt cfg = before ++ COMPANY_NAME cfg ++ after
      /\ before <> [] /\ after <> [].
Proof.
  eexists. eexists. intros cfg. split.
  - unfold system_prompt.
    match goal with
    | |- strip (nl ++ ?a ++ _ ++ ?b) = _ =>
      rewrite (app_assoc nl a); apply (strip_around (nl ++ a) _ b)
    end; vm_compute; discriminate.
  - split; vm_compute; discriminate.
Qed.

(** X19: the system prompt is a fixed text around the configured company
    name: the name is inserted verbatim and is the only part that depends
    on the configuration, and the trimming of the prompt cannot reach it.
    Every request starts with this prompt as its system message and ends
    with the user's text, with the transcript in between. *)
Theorem system_prompt_names_company :
  exists before after,
    before <> [] /\ after <> []
    /\ forall cfg,
         system_prompt cfg = before ++ COMPANY_NAME cfg ++ after
         /\ contains (COMPANY_NAME cfg) (system_prompt cfg) = true
         /\ forall t ud,
              chat_messages cfg t ud
              = mkMessage (u "system") (before ++ COMPANY_NAME cfg ++ after)
                :: get (ud_mem ud) [] ++ [mkMessage (u "user") t].
Proof.
  destruct system_prompt_parts as (before & after & H).
  exists before, after.
  destruct (H offline_cfg) as (_ & Hb & Ha).
  split; [exact Hb|]. split; [exact Ha|].
  intros cfg. destruct (H cfg) as (E & _).
  split; [exact E|]. split; [rewrite E; find_part|].
  intros t ud. unfold chat_messages. now rewrite E.
Qed.

(* ===================================================================== *)
(** * More on runs of the dispatcher *)
(* ===================================================================== *)

Lemma ai_reply_sent cfg net upd w :
  exists reply, sent (snd (ai_reply cfg net upd w)) = sent w ++ [ReplyText reply None].
Proof.
  destruct (ai_reply_run cfg net upd w) as (reply & j & _ & Er).
  exists reply. rewrite Er. cbn [snd].
  rewrite !add_user_memory_run. reflexivity.
Qed.

(** X20: messages already sent are never withdrawn, one update sends at
    most two messages, and an update that sends nothing changes nothing at
    all: whenever the conversation, the user's dict, the lead log or the
    journal changes, the user gets an answer. *)
Theorem every_change_is_answered cfg net upd app :
  let app' := process_update cfg net upd app in
  exists more,
    sent (world app') = sent (world app) ++ more
    /\ (List.length more <= 2)%nat
    /\ (more = [] -> app' = app).
Proof.
  destruct app as [st w]. destruct upd as [usr pl now].
  unfold process_update, route, is_command. cbn [payload conversation world].
  destruct pl as [c full|t|d].
  - destruct (text_eqb c (u "start")).
    { unfold start, bind. rewrite add_user_memory_run.
      eexists [_]. cbn. repeat split; [lia | discriminate]. }
    destruct (text_eqb c (u "services")).
    { eexists [_]. cbn. repeat split; [lia | discriminate]. }
    destruct st as [[| |]|]; cbn [conv_handler payload];
      match goal with |- context [text_eqb c ?k] => destruct (text_eqb c k) end;
      try (exists []; cbn; rewrite app_nil_r; repeat split; lia);
      eexists [_]; cbn; repeat split; try lia; discriminate.
  - destruct st as [[| |]|]; cbn [conv_handler payload].
    + eexists [_]. cbn. repeat split; [lia | discriminate].
    + rewrite collect_email_run. destruct (EMAIL_RE_match (strip t));
        eexists [_]; cbn; repeat split; try lia; discriminate.
    + rewrite collect_note_run.
      eexists [_]. cbn. repeat split; [lia | discriminate].
    + destruct (ai_reply_sent cfg net (mkUpdate usr (PlainText t) now) w)
        as (reply & E).
      exists [ReplyText reply None]. cbn [world].
      split; [exact E|]. split; [cbn; lia | discriminate].
  - destruct (startswith (u "svc:") d) eqn:Es.
    + apply startswith_inv in Es as (key & ->).
      rewrite on_service_click_run. eexists [_; _]. cbn.
      repeat split; [lia | discriminate].
    + replace (conv_handler st (mkUpdate usr (CallbackQuery d) now))
        with (@None (M HandlerResult)) by (destruct st as [[| |]|]; reflexivity).
      exists []. cbn. rewrite app_nil_r. repeat split. lia.
Qed.

Lemma Step_leads upd app app' :
  Step upd app app' ->
  leads_csv (world app') = leads_csv (world app)
  \/ exists row,
       List.length row = 7%nat
       /\ leads_csv (world app')
          = Some (initialized (leads_csv (world app)) ++ [row]).
Proof.
  intros [_ (Hl & _)|_ _ Hl _|t _ _ _ Hl _ _|t _ _ _ _ Hl _ _ _
         |t _ _ _ _ Hl _|_ _ _ _ Hl _]; try (left; exact Hl).
  right. eexists. split; [|exact Hl]. reflexivity.
Qed.

(** X21: the lead log is append-only along every run, from any state.
    After any sequence of updates the log is either what it was, or what
    it was (with the header first if it did not exist) followed by the rows
    added, each of seven cells: no row is ever changed or removed, and the
    header is never written twice. *)
Theorem leads_csv_append_only cfg net upds : forall app,
  exists added,
    Forall (fun row => List.length row = 7%nat) added
    /\ leads_csv (world (run cfg net upds app))
       = match added with
         | [] => leads_csv (world app)
         | _ => Some (initialized (leads_csv (world app)) ++ added)
         end.
Proof.
  induction upds as [|upd upds IH]; intros app.
  - exists []. split; [constructor | reflexivity].
  - cbn [run fold_left].
    change (fold_left (fun a upd0 => process_update cfg net upd0 a) upds ?a)
      with (run cfg net upds a).
    destruct (IH (process_update cfg net upd app)) as (added2 & F2 & E2).
    destruct (Step_leads _ _ _ (process_update_step cfg net upd app))
      as [E1|(row & Hrow & E1)].
    + exists added2. split; [exact F2|]. now rewrite E2, E1.
    + exists (row :: added2). split; [now constructor|].
      rewrite E2, E1. destruct added2 as [|r2 added2]; [reflexivity|].
      cbn [initialized]. now rewrite <- app_assoc.
Qed.
